(** * AgentPro: blueprint revision and rendering

    A shallow embedding of the blueprint-driven single-page renderer
    ([generated_apps/test_blueprint/app.js]) together with a model of the
    server-side deep merge of deltas that the renderer's blueprints come
    from.

    Conventions.
    - A JavaScript property that may be missing is an [option]; the empty
      string and [undefined] are the falsy strings of [a || b].
    - A string is the sequence of bytes of its UTF-8 encoding.
    - Objects whose key order is observable ([Object.keys], object spread,
      [JSON.stringify]) are ordered association lists; [state.collections],
      which the renderer only ever indexes by name, is a [gmap] of its own
      properties.  Reading a property that an object does not own goes on
      to [Object.prototype]; an assignment makes an own property, no
      route path or form control being called [__proto__].
    - A number is written as the integer it holds, or as the integer whose
      nearest double it is.
    - An exception is a result of its own: the rendering of a component
      gives a node or throws.
    - The page is seen through what the script reads of it: the hash of
      the address, the two storage entries, the elements that have an
      id, and the content of the container the routes are rendered
      into. *)

From Stdlib Require Import ZArith NArith Ascii String.
From stdpp Require Import base option list sorting gmap strings pretty.

(** ** JavaScript primitives used by the renderer *)
Module Js.

(** [s] is truthy: defined and not the empty string. *)
Definition truthy (o : option string) : bool :=
  match o with
  | Some s => negb (String.eqb s EmptyString)
  | None => false
  end.

(** [a || b] where both sides may be undefined. *)
Definition or_opt (a b : option string) : option string :=
  if truthy a then a else b.

(** [a || 'd'] with a string literal as the last alternative. *)
Definition or_str (a : option string) (d : string) : string :=
  match a with
  | Some s => if String.eqb s EmptyString then d else s
  | None => d
  end.

(** [a || null]: a falsy string collapses to no value at all. *)
Definition or_null (a : option string) : option string :=
  if truthy a then a else None.

(** [a || b] on DOM string properties, which are never undefined. *)
Definition or_dom (a b : string) : string :=
  if String.eqb a EmptyString then b else a.

(** [s.replace(c, '')] for a one-character pattern: only the first
    occurrence goes. *)
Fixpoint remove_first (c : ascii) (s : string) : string :=
  match s with
  | EmptyString => EmptyString
  | String a s' => if Ascii.eqb a c then s' else String a (remove_first c s')
  end.

Definition starts_with (c : ascii) (s : string) : bool :=
  match s with
  | String a _ => Ascii.eqb a c
  | EmptyString => false
  end.

(** *** Code points

    The functions of the language that look at characters work on code
    points.  A byte that is part of no well-formed UTF-8 sequence is kept
    as it is, numbered above the last code point. *)

Definition bytes (s : string) : list N := map N_of_ascii (list_ascii_of_string s).

Definition of_bytes (l : list N) : string := string_of_list_ascii (map ascii_of_N l).

Definition stray (b : N) : N := (1114112 + b)%N.

Definition continuation (b : N) : bool := (128 <=? b)%N && (b <=? 191)%N.

Definition two_bytes (b0 b1 : N) : option N :=
  if (194 <=? b0)%N && (b0 <=? 223)%N && continuation b1
  then Some ((b0 - 192) * 64 + (b1 - 128))%N else None.

Definition three_bytes (b0 b1 b2 : N) : option N :=
  let c := ((b0 - 224) * 4096 + (b1 - 128) * 64 + (b2 - 128))%N in
  if (224 <=? b0)%N && (b0 <=? 239)%N && continuation b1 && continuation b2
     && (2048 <=? c)%N && negb ((55296 <=? c)%N && (c <=? 57343)%N)
  then Some c else None.

Definition four_bytes (b0 b1 b2 b3 : N) : option N :=
  let c := ((b0 - 240) * 262144 + (b1 - 128) * 4096 + (b2 - 128) * 64 + (b3 - 128))%N in
  if (240 <=? b0)%N && (b0 <=? 244)%N && continuation b1 && continuation b2
     && continuation b3 && (65536 <=? c)%N && (c <=? 1114111)%N
  then Some c else None.

Fixpoint decode (l : list N) : list N :=
  match l with
  | [] => []
  | b0 :: l1 =>
      if (b0 <? 128)%N then b0 :: decode l1
      else
        match l1 with
        | b1 :: l2 =>
            match two_bytes b0 b1 with
            | Some c => c :: decode l2
            | None =>
                match l2 with
                | b2 :: l3 =>
                    match three_bytes b0 b1 b2 with
                    | Some c => c :: decode l3
                    | None =>
                        match l3 with
                        | b3 :: l4 =>
                            match four_bytes b0 b1 b2 b3 with
                            | Some c => c :: decode l4
                            | None => stray b0 :: decode l1
                            end
                        | [] => stray b0 :: decode l1
                        end
                    end
                | [] => stray b0 :: decode l1
                end
            end
        | [] => [stray b0]
        end
  end.

Definition encode_cp (c : N) : list N :=
  if (c <? 128)%N then [c]
  else if (c <? 2048)%N then [192 + c / 64; 128 + c mod 64]%N
  else if (c <? 65536)%N then [224 + c / 4096; 128 + (c / 64) mod 64; 128 + c mod 64]%N
  else if (c <? 1114112)%N
       then [240 + c / 262144; 128 + (c / 4096) mod 64; 128 + (c / 64) mod 64;
             128 + c mod 64]%N
  else [c - 1114112]%N.

Definition encode (l : list N) : list N := l ≫= encode_cp.

(** Runs of letters whose lowercase form lies a fixed distance above
    them: first and last code point of the run, the step between its
    members, the distance. *)
Definition lower_up : list (N * N * N * N) :=
  [(192, 214, 1, 32); (216, 222, 1, 32); (256, 302, 2, 1); (306, 310, 2, 1);
   (313, 327, 2, 1); (330, 374, 2, 1); (377, 381, 2, 1); (385, 385, 1, 210);
   (386, 388, 2, 1); (390, 390, 1, 206); (391, 391, 1, 1); (393, 394, 1, 205);
   (395, 395, 1, 1); (398, 398, 1, 79); (399, 399, 1, 202); (400, 400, 1, 203);
   (401, 401, 1, 1); (403, 403, 1, 205); (404, 404, 1, 207); (406, 406, 1, 211);
   (407, 407, 1, 209); (408, 408, 1, 1); (412, 412, 1, 211); (413, 413, 1, 213);
   (415, 415, 1, 214); (416, 420, 2, 1); (422, 422, 1, 218); (423, 423, 1, 1);
   (425, 425, 1, 218); (428, 428, 1, 1); (430, 430, 1, 218); (431, 431, 1, 1);
   (433, 434, 1, 217); (435, 437, 2, 1); (439, 439, 1, 219); (440, 440, 1, 1);
   (444, 444, 1, 1); (452, 452, 1, 2); (453, 453, 1, 1); (455, 455, 1, 2);
   (456, 456, 1, 1); (458, 458, 1, 2); (459, 475, 2, 1); (478, 494, 2, 1);
   (497, 497, 1, 2); (498, 500, 2, 1); (504, 542, 2, 1); (546, 562, 2, 1);
   (570, 570, 1, 10795); (571, 571, 1, 1); (574, 574, 1, 10792); (577, 577, 1, 1);
   (580, 580, 1, 69); (581, 581, 1, 71); (582, 590, 2, 1); (880, 882, 2, 1);
   (886, 886, 1, 1); (895, 895, 1, 116); (902, 902, 1, 38); (904, 906, 1, 37);
   (908, 908, 1, 64); (910, 911, 1, 63); (913, 929, 1, 32); (932, 939, 1, 32);
   (975, 975, 1, 8); (984, 1006, 2, 1); (1015, 1015, 1, 1); (1018, 1018, 1, 1);
   (1024, 1039, 1, 80); (1040, 1071, 1, 32); (1120, 1152, 2, 1); (1162, 1214, 2, 1);
   (1216, 1216, 1, 15); (1217, 1229, 2, 1); (1232, 1326, 2, 1); (1329, 1366, 1, 48);
   (4256, 4293, 1, 7264); (4295, 4295, 1, 7264); (4301, 4301, 1, 7264); (5024, 5103, 1, 38864);
   (5104, 5109, 1, 8); (7680, 7828, 2, 1); (7840, 7934, 2, 1); (8498, 8498, 1, 28);
   (8544, 8559, 1, 16); (8579, 8579, 1, 1); (9398, 9423, 1, 26); (11264, 11311, 1, 48);
   (11360, 11360, 1, 1); (11367, 11371, 2, 1); (11378, 11378, 1, 1); (11381, 11381, 1, 1);
   (11392, 11490, 2, 1); (11499, 11501, 2, 1); (11506, 11506, 1, 1); (42560, 42604, 2, 1);
   (42624, 42650, 2, 1); (42786, 42798, 2, 1); (42802, 42862, 2, 1); (42873, 42875, 2, 1);
   (42878, 42886, 2, 1); (42891, 42891, 1, 1); (42896, 42898, 2, 1); (42902, 42920, 2, 1);
   (42931, 42931, 1, 928); (42932, 42946, 2, 1); (42951, 42953, 2, 1); (42960, 42960, 1, 1);
   (42966, 42968, 2, 1); (42997, 42997, 1, 1); (65313, 65338, 1, 32); (66560, 66599, 1, 40);
   (66736, 66771, 1, 40); (66928, 66938, 1, 39); (66940, 66954, 1, 39); (66956, 66962, 1, 39);
   (66964, 66965, 1, 39); (68736, 68786, 1, 64); (71840, 71871, 1, 32); (93760, 93791, 1, 32);
   (125184, 125217, 1, 34)]%N.

(** The same for the letters whose lowercase form lies below them. *)
Definition lower_down : list (N * N * N * N) :=
  [(376, 376, 1, 121); (502, 502, 1, 97); (503, 503, 1, 56); (544, 544, 1, 130);
   (573, 573, 1, 163); (579, 579, 1, 195); (1012, 1012, 1, 60); (1017, 1017, 1, 7);
   (1021, 1023, 1, 130); (7312, 7354, 1, 3008); (7357, 7359, 1, 3008); (7838, 7838, 1, 7615);
   (7944, 7951, 1, 8); (7960, 7965, 1, 8); (7976, 7983, 1, 8); (7992, 7999, 1, 8);
   (8008, 8013, 1, 8); (8025, 8031, 2, 8); (8040, 8047, 1, 8); (8072, 8079, 1, 8);
   (8088, 8095, 1, 8); (8104, 8111, 1, 8); (8120, 8121, 1, 8); (8122, 8123, 1, 74);
   (8124, 8124, 1, 9); (8136, 8139, 1, 86); (8140, 8140, 1, 9); (8152, 8153, 1, 8);
   (8154, 8155, 1, 100); (8168, 8169, 1, 8); (8170, 8171, 1, 112); (8172, 8172, 1, 7);
   (8184, 8185, 1, 128); (8186, 8187, 1, 126); (8188, 8188, 1, 9); (8486, 8486, 1, 7517);
   (8490, 8490, 1, 8383); (8491, 8491, 1, 8262); (11362, 11362, 1, 10743); (11363, 11363, 1, 3814);
   (11364, 11364, 1, 10727); (11373, 11373, 1, 10780); (11374, 11374, 1, 10749); (11375, 11375, 1, 10783);
   (11376, 11376, 1, 10782); (11390, 11391, 1, 10815); (42877, 42877, 1, 35332); (42893, 42893, 1, 42280);
   (42922, 42922, 1, 42308); (42923, 42923, 1, 42319); (42924, 42924, 1, 42315); (42925, 42925, 1, 42305);
   (42926, 42926, 1, 42308); (42928, 42928, 1, 42258); (42929, 42929, 1, 42282); (42930, 42930, 1, 42261);
   (42948, 42948, 1, 48); (42949, 42949, 1, 42307); (42950, 42950, 1, 35384)]%N.

(** The cased letters that are not case-ignorable, as ranges. *)
Definition cased_ranges : list (N * N) :=
  [(65, 90); (97, 122); (170, 170); (181, 181); (186, 186); (192, 214);
   (216, 246); (248, 442); (444, 447); (452, 659); (661, 687); (880, 883);
   (886, 887); (891, 893); (895, 895); (902, 902); (904, 906); (908, 908);
   (910, 929); (931, 1013); (1015, 1153); (1162, 1327); (1329, 1366); (1376, 1416);
   (4256, 4293); (4295, 4295); (4301, 4301); (4304, 4346); (4349, 4351); (5024, 5109);
   (5112, 5117); (7296, 7304); (7312, 7354); (7357, 7359); (7424, 7467); (7531, 7543);
   (7545, 7578); (7680, 7957); (7960, 7965); (7968, 8005); (8008, 8013); (8016, 8023);
   (8025, 8025); (8027, 8027); (8029, 8029); (8031, 8061); (8064, 8116); (8118, 8124);
   (8126, 8126); (8130, 8132); (8134, 8140); (8144, 8147); (8150, 8155); (8160, 8172);
   (8178, 8180); (8182, 8188); (8450, 8450); (8455, 8455); (8458, 8467); (8469, 8469);
   (8473, 8477); (8484, 8484); (8486, 8486); (8488, 8488); (8490, 8493); (8495, 8500);
   (8505, 8505); (8508, 8511); (8517, 8521); (8526, 8526); (8544, 8575); (8579, 8580);
   (9398, 9449); (11264, 11387); (11390, 11492); (11499, 11502); (11506, 11507); (11520, 11557);
   (11559, 11559); (11565, 11565); (42560, 42605); (42624, 42651); (42786, 42863); (42865, 42887);
   (42891, 42894); (42896, 42954); (42960, 42961); (42963, 42963); (42965, 42969); (42997, 42998);
   (43002, 43002); (43824, 43866); (43872, 43880); (43888, 43967); (64256, 64262); (64275, 64279);
   (65313, 65338); (65345, 65370); (66560, 66639); (66736, 66771); (66776, 66811); (66928, 66938);
   (66940, 66954); (66956, 66962); (66964, 66965); (66967, 66977); (66979, 66993); (66995, 67001);
   (67003, 67004); (68736, 68786); (68800, 68850); (71840, 71903); (93760, 93823); (119808, 119892);
   (119894, 119964); (119966, 119967); (119970, 119970); (119973, 119974); (119977, 119980); (119982, 119993);
   (119995, 119995); (119997, 120003); (120005, 120069); (120071, 120074); (120077, 120084); (120086, 120092);
   (120094, 120121); (120123, 120126); (120128, 120132); (120134, 120134); (120138, 120144); (120146, 120485);
   (120488, 120512); (120514, 120538); (120540, 120570); (120572, 120596); (120598, 120628); (120630, 120654);
   (120656, 120686); (120688, 120712); (120714, 120744); (120746, 120770); (120772, 120779); (122624, 122633);
   (122635, 122654); (125184, 125251); (127280, 127305); (127312, 127337); (127344, 127369)]%N.

(** The case-ignorable characters, as ranges. *)
Definition ignorable_ranges : list (N * N) :=
  [(39, 39); (46, 46); (58, 58); (94, 94); (96, 96); (168, 168);
   (173, 173); (175, 175); (180, 180); (183, 184); (688, 879); (884, 885);
   (890, 890); (900, 901); (903, 903); (1155, 1161); (1369, 1369); (1375, 1375);
   (1425, 1469); (1471, 1471); (1473, 1474); (1476, 1477); (1479, 1479); (1524, 1524);
   (1536, 1541); (1552, 1562); (1564, 1564); (1600, 1600); (1611, 1631); (1648, 1648);
   (1750, 1757); (1759, 1768); (1770, 1773); (1807, 1807); (1809, 1809); (1840, 1866);
   (1958, 1968); (2027, 2037); (2042, 2042); (2045, 2045); (2070, 2093); (2137, 2139);
   (2184, 2184); (2192, 2193); (2200, 2207); (2249, 2306); (2362, 2362); (2364, 2364);
   (2369, 2376); (2381, 2381); (2385, 2391); (2402, 2403); (2417, 2417); (2433, 2433);
   (2492, 2492); (2497, 2500); (2509, 2509); (2530, 2531); (2558, 2558); (2561, 2562);
   (2620, 2620); (2625, 2626); (2631, 2632); (2635, 2637); (2641, 2641); (2672, 2673);
   (2677, 2677); (2689, 2690); (2748, 2748); (2753, 2757); (2759, 2760); (2765, 2765);
   (2786, 2787); (2810, 2815); (2817, 2817); (2876, 2876); (2879, 2879); (2881, 2884);
   (2893, 2893); (2901, 2902); (2914, 2915); (2946, 2946); (3008, 3008); (3021, 3021);
   (3072, 3072); (3076, 3076); (3132, 3132); (3134, 3136); (3142, 3144); (3146, 3149);
   (3157, 3158); (3170, 3171); (3201, 3201); (3260, 3260); (3263, 3263); (3270, 3270);
   (3276, 3277); (3298, 3299); (3328, 3329); (3387, 3388); (3393, 3396); (3405, 3405);
   (3426, 3427); (3457, 3457); (3530, 3530); (3538, 3540); (3542, 3542); (3633, 3633);
   (3636, 3642); (3654, 3662); (3761, 3761); (3764, 3772); (3782, 3782); (3784, 3789);
   (3864, 3865); (3893, 3893); (3895, 3895); (3897, 3897); (3953, 3966); (3968, 3972);
   (3974, 3975); (3981, 3991); (3993, 4028); (4038, 4038); (4141, 4144); (4146, 4151);
   (4153, 4154); (4157, 4158); (4184, 4185); (4190, 4192); (4209, 4212); (4226, 4226);
   (4229, 4230); (4237, 4237); (4253, 4253); (4348, 4348); (4957, 4959); (5906, 5908);
   (5938, 5939); (5970, 5971); (6002, 6003); (6068, 6069); (6071, 6077); (6086, 6086);
   (6089, 6099); (6103, 6103); (6109, 6109); (6155, 6159); (6211, 6211); (6277, 6278);
   (6313, 6313); (6432, 6434); (6439, 6440); (6450, 6450); (6457, 6459); (6679, 6680);
   (6683, 6683); (6742, 6742); (6744, 6750); (6752, 6752); (6754, 6754); (6757, 6764);
   (6771, 6780); (6783, 6783); (6823, 6823); (6832, 6862); (6912, 6915); (6964, 6964);
   (6966, 6970); (6972, 6972); (6978, 6978); (7019, 7027); (7040, 7041); (7074, 7077);
   (7080, 7081); (7083, 7085); (7142, 7142); (7144, 7145); (7149, 7149); (7151, 7153);
   (7212, 7219); (7222, 7223); (7288, 7293); (7376, 7378); (7380, 7392); (7394, 7400);
   (7405, 7405); (7412, 7412); (7416, 7417); (7468, 7530); (7544, 7544); (7579, 7679);
   (8125, 8125); (8127, 8129); (8141, 8143); (8157, 8159); (8173, 8175); (8189, 8190);
   (8203, 8207); (8216, 8217); (8228, 8228); (8231, 8231); (8234, 8238); (8288, 8292);
   (8294, 8303); (8305, 8305); (8319, 8319); (8336, 8348); (8400, 8432); (11388, 11389);
   (11503, 11505); (11631, 11631); (11647, 11647); (11744, 11775); (11823, 11823); (12293, 12293);
   (12330, 12333); (12337, 12341); (12347, 12347); (12441, 12446); (12540, 12542); (40981, 40981);
   (42232, 42237); (42508, 42508); (42607, 42610); (42612, 42621); (42623, 42623); (42652, 42655);
   (42736, 42737); (42752, 42785); (42864, 42864); (42888, 42890); (42994, 42996); (43000, 43001);
   (43010, 43010); (43014, 43014); (43019, 43019); (43045, 43046); (43052, 43052); (43204, 43205);
   (43232, 43249); (43263, 43263); (43302, 43309); (43335, 43345); (43392, 43394); (43443, 43443);
   (43446, 43449); (43452, 43453); (43471, 43471); (43493, 43494); (43561, 43566); (43569, 43570);
   (43573, 43574); (43587, 43587); (43596, 43596); (43632, 43632); (43644, 43644); (43696, 43696);
   (43698, 43700); (43703, 43704); (43710, 43711); (43713, 43713); (43741, 43741); (43756, 43757);
   (43763, 43764); (43766, 43766); (43867, 43871); (43881, 43883); (44005, 44005); (44008, 44008);
   (44013, 44013); (64286, 64286); (64434, 64450); (65024, 65039); (65043, 65043); (65056, 65071);
   (65106, 65106); (65109, 65109); (65279, 65279); (65287, 65287); (65294, 65294); (65306, 65306);
   (65342, 65342); (65344, 65344); (65392, 65392); (65438, 65439); (65507, 65507); (65529, 65531);
   (66045, 66045); (66272, 66272); (66422, 66426); (67456, 67461); (67463, 67504); (67506, 67514);
   (68097, 68099); (68101, 68102); (68108, 68111); (68152, 68154); (68159, 68159); (68325, 68326);
   (68900, 68903); (69291, 69292); (69446, 69456); (69506, 69509); (69633, 69633); (69688, 69702);
   (69744, 69744); (69747, 69748); (69759, 69761); (69811, 69814); (69817, 69818); (69821, 69821);
   (69826, 69826); (69837, 69837); (69888, 69890); (69927, 69931); (69933, 69940); (70003, 70003);
   (70016, 70017); (70070, 70078); (70089, 70092); (70095, 70095); (70191, 70193); (70196, 70196);
   (70198, 70199); (70206, 70206); (70367, 70367); (70371, 70378); (70400, 70401); (70459, 70460);
   (70464, 70464); (70502, 70508); (70512, 70516); (70712, 70719); (70722, 70724); (70726, 70726);
   (70750, 70750); (70835, 70840); (70842, 70842); (70847, 70848); (70850, 70851); (71090, 71093);
   (71100, 71101); (71103, 71104); (71132, 71133); (71219, 71226); (71229, 71229); (71231, 71232);
   (71339, 71339); (71341, 71341); (71344, 71349); (71351, 71351); (71453, 71455); (71458, 71461);
   (71463, 71467); (71727, 71735); (71737, 71738); (71995, 71996); (71998, 71998); (72003, 72003);
   (72148, 72151); (72154, 72155); (72160, 72160); (72193, 72202); (72243, 72248); (72251, 72254);
   (72263, 72263); (72273, 72278); (72281, 72283); (72330, 72342); (72344, 72345); (72752, 72758);
   (72760, 72765); (72767, 72767); (72850, 72871); (72874, 72880); (72882, 72883); (72885, 72886);
   (73009, 73014); (73018, 73018); (73020, 73021); (73023, 73029); (73031, 73031); (73104, 73105);
   (73109, 73109); (73111, 73111); (73459, 73460); (78896, 78904); (92912, 92916); (92976, 92982);
   (92992, 92995); (94031, 94031); (94095, 94111); (94176, 94177); (94179, 94180); (110576, 110579);
   (110581, 110587); (110589, 110590); (113821, 113822); (113824, 113827); (118528, 118573); (118576, 118598);
   (119143, 119145); (119155, 119170); (119173, 119179); (119210, 119213); (119362, 119364); (121344, 121398);
   (121403, 121452); (121461, 121461); (121476, 121476); (121499, 121503); (121505, 121519); (122880, 122886);
   (122888, 122904); (122907, 122913); (122915, 122916); (122918, 122922); (123184, 123197); (123566, 123566);
   (123628, 123631); (125136, 125142); (125252, 125259); (127995, 127999); (917505, 917505); (917536, 917631);
   (917760, 917999)]%N.

Definition in_ranges (c : N) (l : list (N * N)) : bool :=
  existsb (fun r => (r.1 <=? c)%N && (c <=? r.2)%N) l.

Definition in_run (c : N) (r : N * N * N * N) : bool :=
  let '(lo, hi, step, _) := r in
  (lo <=? c)%N && (c <=? hi)%N && ((c - lo) mod step =? 0)%N.

(** The lowercase form of a code point that has a single one, whatever
    stands around it. *)
Definition lower_simple (c : N) : N :=
  if (c <? 128)%N then (if (65 <=? c)%N && (c <=? 90)%N then c + 32 else c)%N
  else match find (in_run c) lower_up with
       | Some r => (c + r.2)%N
       | None => match find (in_run c) lower_down with
                 | Some r => (c - r.2)%N
                 | None => c
                 end
       end.

(** The next character that is not case-ignorable is a cased letter. *)
Fixpoint meets_cased (l : list N) : bool :=
  match l with
  | [] => false
  | c :: l' => if in_ranges c ignorable_ranges then meets_cased l'
               else in_ranges c cased_ranges
  end.

(** A capital sigma ends a word when a cased letter comes before it and
    none after it, case-ignorable characters not counting. *)
Definition final_sigma (before_reversed after : list N) : bool :=
  meets_cased before_reversed && negb (meets_cased after).

Fixpoint lower_from (before_reversed : list N) (l : list N) : list N :=
  match l with
  | [] => []
  | c :: rest =>
      (if (c =? 931)%N then [if final_sigma before_reversed rest then 962 else 963]%N
       else if (c =? 304)%N then [105; 775]%N
       else [lower_simple c])
      ++ lower_from (c :: before_reversed) rest
  end.

(** [s.toLowerCase()], with the case data of Unicode 14. *)
Definition toLowerCase (s : string) : string :=
  of_bytes (encode (lower_from [] (decode (bytes s)))).

(** *** The fragment of the address

    What the address holds after [location.hash = p]: tabs and line
    breaks are dropped and the bytes of the fragment percent-encode set
    are written as [%XX]. *)

Definition hex_upper (n : N) : ascii :=
  if (n <? 10)%N then ascii_of_N (48 + n) else ascii_of_N (55 + n).

Definition fragment_encoded (b : N) : bool :=
  (b <? 33)%N || (126 <? b)%N || (b =? 34)%N || (b =? 60)%N || (b =? 62)%N || (b =? 96)%N.

Definition dropped (b : N) : bool := (b =? 9)%N || (b =? 10)%N || (b =? 13)%N.

Fixpoint encode_fragment (s : string) : string :=
  match s with
  | EmptyString => EmptyString
  | String a s' =>
      let b := N_of_ascii a in
      if dropped b then encode_fragment s'
      else if fragment_encoded b
           then String "%" (String (hex_upper (b / 16)) (String (hex_upper (b mod 16))
                  (encode_fragment s')))
           else String a (encode_fragment s')
  end.

(** *** Numbers as text *)

(** The double nearest to a positive integer, ties going to the even
    significand. *)
Definition nearest_double (n : Z) : Z :=
  if (n <? 2 ^ 53)%Z then n
  else
    let k := (Z.log2 n - 52)%Z in
    let q := Z.shiftr n k in
    let r := (n - Z.shiftl q k)%Z in
    let half := Z.shiftl 1 (k - 1) in
    Z.shiftl (if (half <? r)%Z || ((r =? half)%Z && Z.odd q) then q + 1 else q)%Z k.

(** Whether [c] is read back as the double [x], everything taken four
    times to stay among the integers. *)
Definition reads_as (x c : Z) : bool :=
  let k := (Z.log2 x - 52)%Z in
  let q := Z.shiftr x k in
  let below := if (q =? 2 ^ 52)%Z then Z.shiftl 1 k else Z.shiftl 1 (k + 1) in
  let above := Z.shiftl 1 (k + 1) in
  let lo := (4 * x - below)%Z in
  let hi := (4 * x + above)%Z in
  if Z.even q then (lo <=? 4 * c)%Z && (4 * c <=? hi)%Z
  else (lo <? 4 * c)%Z && (4 * c <? hi)%Z.

(** The integer with the fewest significant digits, [digits] or more,
    that is read back as [x]; the nearest one when there are two, the
    one with the even last digit when they are as near. *)
Fixpoint shortest (fuel : nat) (digits : Z) (len : Z) (x : Z) : Z :=
  match fuel with
  | O => x
  | S fuel' =>
      let p := (10 ^ (len - digits))%Z in
      let c1 := (x / p * p)%Z in
      let c2 := (c1 + p)%Z in
      match reads_as x c1, reads_as x c2 with
      | true, true =>
          if (x - c1 <? c2 - x)%Z then c1
          else if (c2 - x <? x - c1)%Z then c2
          else if Z.even (x / p) then c1 else c2
      | true, false => c1
      | false, true => c2
      | false, false => shortest fuel' (digits + 1) len x
      end
  end.

Fixpoint strip_zeros (rev_digits : list ascii) : list ascii :=
  match rev_digits with
  | a :: l => if Ascii.eqb a "0" then strip_zeros l else rev_digits
  | [] => []
  end.

(** [String(x)] for a positive double that is an integer. *)
Definition positive_text (x : Z) : string :=
  if (x <? 2 ^ 53)%Z then pretty x
  else
    let all := pretty x in
    let c := shortest 17 1 (Z.of_nat (String.length all)) x in
    if (c <? 10 ^ 21)%Z then pretty c
    else
      let ds := list_ascii_of_string (pretty c) in
      let e := pretty (Z.of_nat (length ds) - 1)%Z in
      match rev (strip_zeros (rev ds)) with
      | [] => pretty c
      | [d] => String d ("e+" +:+ e)
      | d :: more => String d ("." +:+ string_of_list_ascii more +:+ "e+" +:+ e)
      end.

(** The number nearest to [n] is finite. *)
Definition finite (n : Z) : bool := (nearest_double (Z.abs n) <? 2 ^ 1024)%Z.

(** [String(x)] for the number nearest to the integer [n]. *)
Definition number_text (n : Z) : string :=
  if finite n
  then (if (n <? 0)%Z then "-" else EmptyString) +:+ positive_text (nearest_double (Z.abs n))
  else if (n <? 0)%Z then "-Infinity" else "Infinity".

(** *** A start tag in markup

    Where the script hands a template with a value in it to the parser,
    what it gets back depends on how the tag around the value is read. *)

Definition html_space (a : ascii) : bool :=
  let n := N_of_ascii a in
  (n =? 9)%N || (n =? 10)%N || (n =? 12)%N || (n =? 13)%N || (n =? 32)%N.

(** The states of the tokenizer between a tag name and the end of its
    tag. *)
Inductive TagState :=
| BeforeName | InName | AfterName | BeforeValue
| InDouble | InSingle | InUnquoted | AfterQuoted | SelfClosing.

(** One character inside a start tag: the state after it, or [None]
    when it ends the tag. *)
Definition tag_step (st : TagState) (a : ascii) : option TagState :=
  match st with
  | BeforeName =>
      if html_space a then Some BeforeName
      else if Ascii.eqb a "/" then Some SelfClosing
      else if Ascii.eqb a ">" then None
      else Some InName
  | InName =>
      if html_space a then Some AfterName
      else if Ascii.eqb a "/" then Some SelfClosing
      else if Ascii.eqb a ">" then None
      else if Ascii.eqb a "=" then Some BeforeValue
      else Some InName
  | AfterName =>
      if html_space a then Some AfterName
      else if Ascii.eqb a "/" then Some SelfClosing
      else if Ascii.eqb a ">" then None
      else if Ascii.eqb a "=" then Some BeforeValue
      else Some InName
  | BeforeValue =>
      if html_space a then Some BeforeValue
      else if Ascii.eqb a (ascii_of_nat 34) then Some InDouble
      else if Ascii.eqb a "'" then Some InSingle
      else if Ascii.eqb a ">" then None
      else Some InUnquoted
  | InDouble => if Ascii.eqb a (ascii_of_nat 34) then Some AfterQuoted else Some InDouble
  | InSingle => if Ascii.eqb a "'" then Some AfterQuoted else Some InSingle
  | InUnquoted =>
      if html_space a then Some BeforeName
      else if Ascii.eqb a ">" then None
      else Some InUnquoted
  | AfterQuoted =>
      if html_space a then Some BeforeName
      else if Ascii.eqb a "/" then Some SelfClosing
      else if Ascii.eqb a ">" then None
      else Some InName
  | SelfClosing =>
      if Ascii.eqb a ">" then None
      else if html_space a then Some BeforeName
      else if Ascii.eqb a "/" then Some SelfClosing
      else Some InName
  end.

(** The tag being read in state [st] ends within [s]; otherwise the
    markup ends inside the tag and the parser drops it. *)
Fixpoint tag_ends (st : TagState) (s : string) : bool :=
  match s with
  | EmptyString => false
  | String a s' =>
      match tag_step st a with
      | None => true
      | Some st' => tag_ends st' s'
      end
  end.

Definition hex_value (a : ascii) : option N :=
  let n := N_of_ascii a in
  if (48 <=? n)%N && (n <=? 57)%N then Some (n - 48)%N
  else if (65 <=? n)%N && (n <=? 70)%N then Some (n - 55)%N
  else if (97 <=? n)%N && (n <=? 102)%N then Some (n - 87)%N
  else None.

(** The number a run of digits at the head of [s] stands for in the
    given base, if there is a digit at all. *)
Fixpoint digits_number (base : N) (acc : option N) (s : string) : option N :=
  match s with
  | EmptyString => acc
  | String a s' =>
      match hex_value a with
      | Some d =>
          if (d <? base)%N
          then digits_number base (Some (default 0 acc * base + d)%N) s'
          else acc
      | None => acc
      end
  end.

(** What follows an ampersand is a character reference to [#]. *)
Definition refers_to_hash (s : string) : bool :=
  match s with
  | String "n" (String "u" (String "m" (String ";" _))) => true
  | String "#" (String x s') =>
      if Ascii.eqb x "x" || Ascii.eqb x "X"
      then bool_decide (digits_number 16 None s' = Some 35%N)
      else bool_decide (digits_number 10 None (String x s') = Some 35%N)
  | _ => false
  end.

(** [el.getAttribute(name).startsWith('#')] for an attribute written
    [name="v"] in the markup: the value ends at the first double quote of
    [v] and its character references are resolved. *)
Definition attribute_starts_with_hash (v : string) : bool :=
  match v with
  | String a s' =>
      if Ascii.eqb a "#" then true
      else if Ascii.eqb a "&" then refers_to_hash s'
      else false
  | EmptyString => false
  end.

(** *** Properties reached through the prototype *)

(** The names [Object.prototype] has a member for. *)
Definition proto_members : list string :=
  ["constructor"; "__defineGetter__"; "__defineSetter__"; "hasOwnProperty";
   "__lookupGetter__"; "__lookupSetter__"; "isPrototypeOf"; "propertyIsEnumerable";
   "toString"; "valueOf"; "__proto__"; "toLocaleString"].

(** What [o[k]] gives on an ordinary object: the property the object
    owns, else the member of [Object.prototype] of that name, else
    [undefined]. *)
Inductive Lookup (A : Type) :=
| Own (a : A)
| Inherited (member : string)
| Undefined.

Arguments Own {A} a.
Arguments Inherited {A} member.
Arguments Undefined {A}.

Definition lookup {A} (own : option A) (k : string) : Lookup A :=
  match own with
  | Some a => Own a
  | None => if bool_decide (k ∈ proto_members) then Inherited k else Undefined
  end.

(** *** Ordered objects

    Own string keys of an ordinary object are enumerated with the
    canonical array indices first, in increasing numeric order, and the
    other keys after them in insertion order. *)

Definition is_digit (a : ascii) : bool :=
  let n := nat_of_ascii a in (48 <=? n)%nat && (n <=? 57)%nat.

Fixpoint digits_value (acc : N) (s : string) : option N :=
  match s with
  | EmptyString => Some acc
  | String a s' =>
      if is_digit a
      then digits_value (acc * 10 + (N_of_ascii a - 48))%N s'
      else None
  end.

(** The array index a key denotes, if it is a canonical numeric string
    below 2^32 - 1. *)
Definition array_index (k : string) : option N :=
  match k with
  | EmptyString => None
  | String a rest =>
      if Ascii.eqb a "0" && negb (String.eqb rest EmptyString) then None
      else match digits_value 0 k with
           | Some n => if (n <? 4294967295)%N then Some n else None
           | None => None
           end
  end.

Definition obj (V : Type) : Type := list (string * V).

(** The property [k] that [o] owns. *)
Fixpoint get {V} (k : string) (o : obj V) : option V :=
  match o with
  | [] => None
  | (k', v) :: o' => if String.eqb k' k then Some v else get k o'
  end.

(** [o[k]]. *)
Definition prop {V} (k : string) (o : obj V) : Lookup V := lookup (get k o) k.

(** A key not yet present goes to its place in the enumeration order. *)
Fixpoint add_new {V} (k : string) (v : V) (o : obj V) : obj V :=
  match o with
  | [] => [(k, v)]
  | (k', v') :: o' =>
      match array_index k, array_index k' with
      | Some n, Some n' =>
          if (n <? n')%N then (k, v) :: o else (k', v') :: add_new k v o'
      | Some _, None => (k, v) :: o
      | None, _ => (k', v') :: add_new k v o'
      end
  end.

Fixpoint replace_value {V} (k : string) (v : V) (o : obj V) : obj V :=
  match o with
  | [] => []
  | (k', v') :: o' =>
      if String.eqb k' k then (k', v) :: o' else (k', v') :: replace_value k v o'
  end.

(** [o[k] = v]: an existing key keeps its place. *)
Definition set {V} (k : string) (v : V) (o : obj V) : obj V :=
  match get k o with
  | Some _ => replace_value k v o
  | None => add_new k v o
  end.

(** [Object.keys(o)]. *)
Definition keys {V} (o : obj V) : list string := o.*1.

End Js.
(** ** Data handled by the renderer *)

(** A value as the renderer meets it in a runtime record or in the items
    of a list.  [VNum n] is the number nearest to the integer [n]; [VFile]
    is a [File] picked in a file input, [VEmptyObj] what such a file
    becomes after a round trip through JSON; [VProto m] is the member [m]
    of [Object.prototype], which reading a property that a record does
    not own can give: a built-in function, or for [__proto__] the
    prototype itself. *)
Inductive Value :=
| VUndef
| VNull
| VBool (b : bool)
| VNum (n : Z)
| VStr (s : string)
| VFile (name : string)
| VEmptyObj
| VProto (member : string).

#[global] Instance Value_eq_dec : EqDecision Value.
Proof. solve_decision. Defined.

(** A runtime record: a row of a named collection. *)
Abbreviation Record := (Js.obj Value).

Record Column := {
  col_header : option string;
  col_field : option string
}.

Record Field := {
  f_label : option string;
  f_name : option string;
  f_id : option string;
  f_type : option string
}.

Record Submit := {
  submit_collection : option string;
  submit_to : option string
}.

(** The [type] of a component as the blueprint holds it, when it is
    truthy: a string, or something else (a number, [true], an array, an
    object), on which [toLowerCase] is not a function. *)
Inductive TypeValue :=
| TString (s : string)
| TOther.

#[global] Instance TypeValue_eq_dec : EqDecision TypeValue.
Proof. solve_decision. Defined.

(** A component of a route, with the properties [app.js] reads; all but
    [type] at the types the blueprint schema gives them. *)
Record Component := {
  c_type : option TypeValue;
  c_value : option string;
  c_src : option string;
  c_to : option string;
  c_label : option string;
  c_action : option string;
  c_formId : option string;
  c_items : option (list Value);
  c_collection : option string;
  c_field : option string;
  c_columns : option (list Column);
  c_rows : option (list Record);
  c_fields : option (list Field);
  c_submit : option Submit;
  c_redirect : option string
}.

#[global] Instance Column_eq_dec : EqDecision Column.
Proof. solve_decision. Defined.
#[global] Instance Field_eq_dec : EqDecision Field.
Proof. solve_decision. Defined.
#[global] Instance Submit_eq_dec : EqDecision Submit.
Proof. solve_decision. Defined.
#[global] Instance Component_eq_dec : EqDecision Component.
Proof. solve_decision. Defined.

Record Route := {
  path : option string;
  title : option string;
  components : option (list Component)
}.

#[global] Instance Route_eq_dec : EqDecision Route.
Proof. solve_decision. Defined.

Record User := {
  username : string;
  name : option string
}.

Record Comment := {
  cm_user : string;
  cm_text : string
}.

Record Post := {
  p_id : option Z;
  p_user : string;
  p_img : option string;
  p_caption : option string;
  p_likes : option Z;
  p_liked : bool;
  p_comments : option (list Comment);
  p_ts : option Z
}.

Record Notification := { n_text : string }.

Record Message := {
  m_with : string;
  m_last : string
}.

(** [state]: the runtime state of the rendered application. *)
Record State := {
  currentUser : User;
  users : list User;
  posts : list Post;
  notifications : list Notification;
  messages : list Message;
  collections : gmap string (list Record)
}.

(** [JSON.parse(localStorage.getItem('bp_state') || '{}')]: the state as
    found at load time, every part of which may be missing. *)
Record Persisted := {
  ps_currentUser : option User;
  ps_users : option (list User);
  ps_posts : option (list Post);
  ps_notifications : option (list Notification);
  ps_messages : option (list Message);
  ps_collections : option (gmap string (list Record))
}.

(** [window.__SAMPLE__ || {}]. *)
Record Sample := {
  s_users : option (list User);
  s_posts : option (list Post);
  s_notifications : option (list Notification);
  s_messages : option (list Message);
  s_collections : option (gmap string (list Record))
}.

(** A form control as [querySelectorAll('input,textarea,select')] finds
    it: DOM string properties are empty when unset; [el_files] lists the
    picked files of a file input. *)
Record Control := {
  el_name : string;
  el_id : string;
  el_placeholder : string;
  el_type : string;
  el_value : string;
  el_files : list string
}.

(** An element of the page, seen through its form controls. *)
Abbreviation FormEl := (list Control).

(** The configuration [handleAction] receives: a button passes its own
    component, a form a fresh object carrying the form element. *)
Record Cfg := {
  cfg_to : option string;
  cfg_formId : option string;
  cfg_formEl : option FormEl;
  cfg_collection : option string;
  cfg_redirect : option string
}.

(** What handlers are attached to rendered nodes. *)
Inductive Handler :=
| OnLinkClick (c : Component)
| OnButtonClick (c : Component)
| OnFormSubmit (c : Component)
| OnComposerPost
| OnLike (p : Post)
| OnComment (p : Post)
| OnTodoAdd
| OnTodoRemove (i : nat).

(** Rendered nodes as the script writes them: elements with the
    attributes of their template, and markup inserted as text through a
    template string. *)
#[warnings="-register-all"]
Inductive Node :=
| El (tag : string) (attrs : list (string * string))
     (on : option Handler) (kids : list Node)
| Html (markup : string).

(** The page: runtime state, the two [localStorage] entries, the address
    bar, the route table built at load, and the content of [#app]. *)
Record World := {
  state : State;
  bp_state : option Persisted;
  todos : option (list string);
  hash : string;
  routes : Js.obj Route;
  app : list Node
}.

(** ** The renderer of [app.js] *)
Module Renderer.

Definition with_state (s : State) (w : World) : World :=
  {| state := s; bp_state := bp_state w; todos := todos w;
     hash := hash w; routes := routes w; app := app w |}.

Definition with_bp_state (p : option Persisted) (w : World) : World :=
  {| state := state w; bp_state := p; todos := todos w;
     hash := hash w; routes := routes w; app := app w |}.

Definition with_hash (h : string) (w : World) : World :=
  {| state := state w; bp_state := bp_state w; todos := todos w;
     hash := h; routes := routes w; app := app w |}.

Definition with_app (a : list Node) (w : World) : World :=
  {| state := state w; bp_state := bp_state w; todos := todos w;
     hash := hash w; routes := routes w; app := a |}.

Definition with_posts (ps : list Post) (s : State) : State :=
  {| currentUser := currentUser s; users := users s; posts := ps;
     notifications := notifications s; messages := messages s;
     collections := collections s |}.

Definition with_collections (cs : gmap string (list Record)) (s : State) : State :=
  {| currentUser := currentUser s; users := users s; posts := posts s;
     notifications := notifications s; messages := messages s;
     collections := cs |}.

(** *** Conversions to text *)

Definition quote_char : ascii := ascii_of_nat 34.
Definition backslash : ascii := ascii_of_nat 92.

(** The source text of a built-in function, as V8 gives it; the white
    space between the braces is the engine's choice. *)
Definition native_text (fname : string) : string :=
  "function " +:+ fname +:+ "() { [native code] }".

(** [String(v)]. *)
Definition to_String (v : Value) : string :=
  match v with
  | VUndef => "undefined"
  | VNull => "null"
  | VBool true => "true"
  | VBool false => "false"
  | VNum n => Js.number_text n
  | VStr s => s
  | VFile _ => "[object File]"
  | VEmptyObj => "[object Object]"
  | VProto m =>
      if String.eqb m "__proto__" then "[object Object]"
      else native_text (if String.eqb m "constructor" then "Object" else m)
  end.

Definition hex_digit (n : nat) : ascii :=
  if (n <? 10)%nat then ascii_of_nat (48 + n) else ascii_of_nat (87 + n).

(** One character inside a JSON string literal. *)
Definition json_char (a : ascii) : string :=
  let n := nat_of_ascii a in
  if Ascii.eqb a quote_char then String backslash (String quote_char EmptyString)
  else if Ascii.eqb a backslash then String backslash (String backslash EmptyString)
  else if (n =? 8)%nat then String backslash "b"
  else if (n =? 9)%nat then String backslash "t"
  else if (n =? 10)%nat then String backslash "n"
  else if (n =? 12)%nat then String backslash "f"
  else if (n =? 13)%nat then String backslash "r"
  else if (n <? 32)%nat
       then String backslash
              ("u00" +:+ String (hex_digit (n / 16)) (String (hex_digit (n mod 16)) EmptyString))
  else String a EmptyString.

Fixpoint json_chars (s : string) : string :=
  match s with
  | EmptyString => EmptyString
  | String a s' => json_char a +:+ json_chars s'
  end.

Definition json_string (s : string) : string :=
  String quote_char (json_chars s +:+ String quote_char EmptyString).

(** The JSON text of a property value; a property holding [undefined]
    or a function is left out of its object, and a number that is not
    finite is written [null]. *)
Definition json_of_value (v : Value) : option string :=
  match v with
  | VUndef => None
  | VNull => Some "null"
  | VBool true => Some "true"
  | VBool false => Some "false"
  | VNum n => Some (if Js.finite n then Js.number_text n else "null")
  | VStr s => Some (json_string s)
  | VFile _ => Some "{}"
  | VEmptyObj => Some "{}"
  | VProto m => if String.eqb m "__proto__" then Some "{}" else None
  end.

Definition json_member (kv : string * Value) : option string :=
  (fun t => json_string kv.1 +:+ ":" +:+ t) <$> json_of_value kv.2.

Fixpoint join (sep : string) (l : list string) : string :=
  match l with
  | [] => EmptyString
  | [x] => x
  | x :: l' => x +:+ sep +:+ join sep l'
  end.

(** [JSON.stringify(x)] of a record. *)
Definition JSON_stringify (x : Record) : string :=
  "{" +:+ join "," (omap json_member x) +:+ "}".

(** What a value is after [JSON.parse(JSON.stringify(...))]. *)
Definition json_value (v : Value) : option Value :=
  match v with
  | VUndef => None
  | VFile _ => Some VEmptyObj
  | VNum n => Some (if Js.finite n then VNum n else VNull)
  | VProto m => if String.eqb m "__proto__" then Some VEmptyObj else None
  | _ => Some v
  end.

Definition json_record (r : Record) : Record :=
  omap (fun kv => (fun v => (kv.1, v)) <$> json_value kv.2) r.

(** *** escapeHtml

    The pattern matches maximal runs of the four special characters and
    the replacement looks the whole run up in a table of single
    characters: a run of one becomes its entity, a longer run is not in
    the table and becomes the text of [undefined]. *)

Definition special (a : ascii) : bool :=
  Ascii.eqb a "&" || Ascii.eqb a "<" || Ascii.eqb a ">" || Ascii.eqb a quote_char.

Definition entity (a : ascii) : string :=
  if Ascii.eqb a "&" then "&amp;"
  else if Ascii.eqb a "<" then "&lt;"
  else if Ascii.eqb a ">" then "&gt;"
  else "&quot;".

(** The run being read: its first character and whether it is longer
    than one. *)
Definition flush (run : option (ascii * bool)) : string :=
  match run with
  | None => EmptyString
  | Some (a, false) => entity a
  | Some (_, true) => "undefined"
  end.

Fixpoint escape_from (run : option (ascii * bool)) (s : string) : string :=
  match s with
  | EmptyString => flush run
  | String a s' =>
      if special a
      then escape_from (match run with
                        | None => Some (a, false)
                        | Some (b, _) => Some (b, true)
                        end) s'
      else flush run +:+ String a (escape_from None s')
  end.

Definition escapeHtml (s : string) : string := escape_from None s.

(** *** Persistence *)

(** The state as [JSON.stringify] writes it and [JSON.parse] reads it
    back. *)
Definition persist (s : State) : Persisted := {|
  ps_currentUser := Some (currentUser s);
  ps_users := Some (users s);
  ps_posts := Some (posts s);
  ps_notifications := Some (notifications s);
  ps_messages := Some (messages s);
  ps_collections := Some (fmap (M := gmap string) (map json_record) (collections s))
|}.

Definition save (w : World) : World :=
  with_bp_state (Some (persist (state w))) w.

Definition no_persisted : Persisted := {|
  ps_currentUser := None; ps_users := None; ps_posts := None;
  ps_notifications := None; ps_messages := None; ps_collections := None
|}.

Definition default_user : User := {| username := "you"; name := Some "คุณ" |}.

(** Lines 5 to 11: the state found in storage, completed from the sample
    data where a part is missing. *)
Definition seed (SAMPLE : Sample) (stored : option Persisted) : State :=
  let ps := default no_persisted stored in
  let cu :=
    match ps_currentUser ps with
    | Some u => u
    | None => match s_users SAMPLE with
              | Some (u :: _) => u
              | _ => default_user
              end
    end in
  {| currentUser := cu;
     users := match ps_users ps with
              | Some l => l
              | None => default [cu] (s_users SAMPLE)
              end;
     posts := match ps_posts ps with
              | Some l => l
              | None => default [] (s_posts SAMPLE)
              end;
     notifications := match ps_notifications ps with
                      | Some l => l
                      | None => default [] (s_notifications SAMPLE)
                      end;
     messages := match ps_messages ps with
                 | Some l => l
                 | None => default [] (s_messages SAMPLE)
                 end;
     collections := match ps_collections ps with
                    | Some m => m
                    | None => default ∅ (s_collections SAMPLE)
                    end |}.

(** [routeMap]: a later route with the same path takes the entry of the
    earlier one. *)
Definition routeMap (bp_routes : option (list Route)) : Js.obj Route :=
  foldl (fun map r => Js.set (Js.or_str (path r) "#/") r map) [] (default [] bp_routes).

(** *** Components *)

Definition card : list (string * string) := [("class", "card")].

(** [state.collections[nm]]. *)
Definition collection (s : State) (nm : string) : Js.Lookup (list Record) :=
  Js.lookup (collections s !! nm) nm.

(** [x[field] ?? JSON.stringify(x)]. *)
Definition item_of (field : string) (x : Record) : Value :=
  match Js.prop field x with
  | Js.Own VUndef | Js.Own VNull | Js.Undefined => VStr (JSON_stringify x)
  | Js.Own v => v
  | Js.Inherited m => VProto m
  end.

(** [bindItems]; there is no result when what the collection name gives
    is a member of [Object.prototype], on which [map] is not a function:
    a [TypeError] is thrown. *)
Definition bindItems (s : State) (c : Component) : option (list Value) :=
  match c_items c with
  | Some items => Some items
  | None =>
      if Js.truthy (c_collection c)
      then
        match collection s (default EmptyString (c_collection c)) with
        | Js.Own coll => Some (map (item_of (Js.or_str (c_field c) "name")) coll)
        | Js.Undefined => Some []
        | Js.Inherited _ => None
        end
      else Some []
  end.

(** The rows a table shows: its own [rows], else what the collection it
    names gives; [None] stands for a member of [Object.prototype]. *)
Definition table_rows (s : State) (c : Component) : option (list Record) :=
  match c_rows c with
  | Some rows => Some rows
  | None =>
      if Js.truthy (c_collection c)
      then
        match collection s (default EmptyString (c_collection c)) with
        | Js.Own coll => Some coll
        | Js.Undefined => Some []
        | Js.Inherited _ => None
        end
      else Some []
  end.

(** [String(r[col.field] ?? '')] in its cell. *)
Definition table_cell (r : Record) (col : Column) : Node :=
  El "td" [] None
    [Html (escapeHtml (to_String
       match Js.prop (default "undefined" (col_field col)) r with
       | Js.Own VUndef | Js.Own VNull | Js.Undefined => VStr EmptyString
       | Js.Own v => v
       | Js.Inherited m => VProto m
       end))].

(** [renderTable]; [rows.map] throws a [TypeError] when [rows] is a
    member of [Object.prototype]. *)
Definition renderTable (s : State) (c : Component) : option Node :=
  let cols := default [] (c_columns c) in
  let thead :=
    El "thead" [] None
      [El "tr" [] None
         (map (fun col =>
                 El "th" [] None
                   [Html (escapeHtml
                      (Js.or_str (Js.or_opt (col_header col) (col_field col)) EmptyString))])
              cols)] in
  (fun rows =>
     El "div" card None
       [El "div" [("class", "table-wrap")] None
          [El "table" [] None
             [thead;
              El "tbody" [] None
                (map (fun r => El "tr" [] None (map (table_cell r) cols)) rows)]]])
  <$> table_rows s c.

(** [b.ts - a.ts]; a difference that is not a number counts as zero in a
    sort. *)
Definition by_ts (a b : Post) : Z :=
  match p_ts a, p_ts b with
  | Some x, Some y => y - x
  | _, _ => 0
  end.

Fixpoint insert_post (x : Post) (l : list Post) : list Post :=
  match l with
  | [] => [x]
  | y :: l' => if (by_ts y x <=? 0)%Z then y :: insert_post x l' else x :: l
  end.

(** [posts.sort((a,b) => b.ts - a.ts)]: newest first, stable.  Where posts
    with and without a time are mixed the comparison is not consistent
    and the order is the engine's choice; this is the order of an
    insertion sort. *)
Definition sort_posts (l : list Post) : list Post :=
  foldl (fun acc x => insert_post x acc) [] l.

Definition renderPost (p : Post) : Node :=
  El "article" card None
    ([El "div" [("class", "head")] None
        [El "strong" [] None [Html ("@" +:+ p_user p)]]]
     ++ (if Js.truthy (p_img p)
         then [El "img" [("src", default EmptyString (p_img p)); ("alt", "post")] None []]
         else [])
     ++ [El "div" [("class", "actions")] None
           [El "button" [("data-like", EmptyString)] (Some (OnLike p))
              [Html ("❤ " +:+ (if p_liked p then "เลิกถูกใจ" else "ถูกใจ"))];
            El "button" [("data-cmt", EmptyString)] (Some (OnComment p))
              [Html "💬 คอมเมนต์"];
            El "button" [("data-share", EmptyString)] None [Html "↗️ แชร์"]];
         El "div" [("class", "meta")] None
           [Html (Js.number_text (default 0%Z (p_likes p)) +:+ " likes")];
         El "div" [("class", "meta")] None
           [Html (escapeHtml (Js.or_str (p_caption p) EmptyString))];
         El "div" [("class", "meta")] None
           [Html (pretty (length (default [] (p_comments p))) +:+ " ความคิดเห็น")]]).

Definition renderFeed (s : State) : Node * State :=
  let sorted := sort_posts (posts s) in
  (El "div" [] None (map renderPost sorted), with_posts sorted s).

Definition renderComposer : Node :=
  El "div" card None
    [El "h3" [] None [Html "สร้างโพสต์ใหม่"];
     El "input" [("type", "file"); ("accept", "image/*"); ("id", "file")] None [];
     El "textarea" [("id", "cap"); ("placeholder", "คำบรรยาย");
                    ("style", "width:100%;margin-top:8px")] None [];
     El "div" [("style", "margin-top:8px")] None
       [El "button" [("id", "btn")] (Some OnComposerPost) [Html "โพสต์"]]].

Definition form_row (f : Field) : Node :=
  let t := Js.toLowerCase (Js.or_str (f_type f) "text") in
  let nm := Js.or_str (Js.or_opt (f_name f) (f_id f)) "field" in
  El "div" [("style", "margin:6px 0")] None
    [El "div" [("style", "margin-bottom:4px")] None
       [Html (escapeHtml (Js.or_str (Js.or_opt (f_label f) (f_name f)) EmptyString))];
     if String.eqb t "textarea"
     then El "textarea" [("style", "width:100%"); ("name", nm)] None []
     else El "input" [("style", "width:100%"); ("type", t); ("name", nm)] None []].

Definition renderForm (cfg : Component) : Node :=
  El "div" card None
    [El "form" [] (Some (OnFormSubmit cfg))
       (map form_row (default [] (c_fields cfg))
        ++ [El "button" [("type", "submit")] None [Html "ส่ง"]])].

Definition renderInbox (s : State) : Node :=
  El "div" card None
    (map (fun m => El "div" [] None [Html (m_with m +:+ ": " +:+ m_last m)]) (messages s)).

Definition renderNotifications (s : State) : Node :=
  El "div" card None
    (map (fun n => El "div" [] None [Html (n_text n)]) (notifications s)).

Definition renderProfile (s : State) : Node :=
  let me := username (currentUser s) in
  El "div" [] None
    [El "div" card None
       [El "h3" [] None [Html ("@" +:+ me)];
        El "p" [] None [Html (Js.or_str (name (currentUser s)) EmptyString)]];
     El "div" [("class", "grid")] None
       (map (fun p => El "img" [("src", default "undefined" (p_img p))] None [])
            (filter (fun p => p_user p = me) (posts s)))].

Definition renderTodo (stored : option (list string)) : Node :=
  El "div" card None
    [El "h3" [] None [Html "Todo"];
     El "input" [("id", "t"); ("placeholder", "เพิ่มงาน")] None [];
     El "button" [("id", "b")] (Some OnTodoAdd) [Html "เพิ่ม"];
     El "ul" [("id", "list")] None
       (imap (fun i t => El "li" [] (Some (OnTodoRemove i)) [Html t]) (default [] stored))].


(** The kind a component is dispatched on, [(c.type || 'text').toLowerCase()];
    there is none when the type is not a string: a [TypeError] is
    thrown. *)
Definition kind (c : Component) : option string :=
  match c_type c with
  | None => Some "text"
  | Some (TString s) => Some (Js.toLowerCase (if String.eqb s EmptyString then "text" else s))
  | Some TOther => None
  end.

(** The last line of [renderComponent]. *)
Definition placeholder (t : string) : Node :=
  El "div" card None [Html ("[" +:+ t +:+ "]")].

(** The markup of a link from the value of its [href] on. *)
Definition link_tail (c : Component) : string :=
  Js.or_str (c_to c) "#/"
  +:+ String quote_char (" class=" +:+ String quote_char ("card" +:+ String quote_char
        (">" +:+ escapeHtml (Js.or_str (c_label c) "ลิงก์") +:+ "</a>"))).

(** The markup of a link gives an element: its start tag comes to an
    end.  A target that holds a double quote ends the attribute early and
    what follows it is read as further attributes. *)
Definition link_parses (c : Component) : bool := Js.tag_ends Js.InDouble (link_tail c).

(** The branches of [renderComponent] for a kind [t]; [None] is a
    [TypeError], thrown before anything is changed.  Rendering a feed
    sorts [state.posts] in place, so the state is handed on to the next
    component. *)
Definition renderKind (stored_todos : option (list string))
    (s : State) (c : Component) (t : string) : option Node * State :=
  if String.eqb t "text" then
    (Some (El "div" card None [Html (escapeHtml (Js.or_str (c_value c) EmptyString))]), s)
  else if String.eqb t "image" then
    (Some (El "div" card None [El "img" [("src", Js.or_str (c_src c) EmptyString)] None []]), s)
  else if String.eqb t "link" then
    (if link_parses c
     then Some (El "a" [("href", Js.or_str (c_to c) "#/"); ("class", "card")]
                  (Some (OnLinkClick c))
                  [Html (escapeHtml (Js.or_str (c_label c) "ลิงก์"))])
     else None, s)
  else if String.eqb t "button" then
    (Some (El "button" [] (Some (OnButtonClick c))
             [Html (escapeHtml (Js.or_str (c_label c) "ปุ่ม"))]), s)
  else if String.eqb t "list" then
    ((fun items =>
        El "ul" card None
          (map (fun it => El "li" [] None [Html (escapeHtml (to_String it))]) items))
     <$> bindItems s c, s)
  else if String.eqb t "table" then (renderTable s c, s)
  else if String.eqb t "grid" then
    (Some (El "div" [("class", "grid")] None
             (map (fun src => El "img" [("src", src)] None [])
                  (omap (fun p => Js.or_null (p_img p)) (posts s)))), s)
  else if String.eqb t "form" then (Some (renderForm c), s)
  else if String.eqb t "composer" then (Some renderComposer, s)
  else if String.eqb t "inbox" then (Some (renderInbox s), s)
  else if String.eqb t "notifications" then (Some (renderNotifications s), s)
  else if String.eqb t "profile" then (Some (renderProfile s), s)
  else if String.eqb t "feed" then (Some (renderFeed s).1, (renderFeed s).2)
  else if String.eqb t "todo" then (Some (renderTodo stored_todos), s)
  else (Some (placeholder t), s).

(** [renderComponent]. *)
Definition renderComponent (stored_todos : option (list string))
    (s : State) (c : Component) : option Node * State :=
  match kind c with
  | Some t => renderKind stored_todos s c t
  | None => (None, s)
  end.

(** The loop of [renderRoute]: the nodes appended to the container, in
    order, and the state after the last component; the loop ends at the
    first component that throws, with no nodes to show. *)
Fixpoint render_all (stored_todos : option (list string)) (s : State)
    (cs : list Component) : option (list Node) * State :=
  match cs with
  | [] => (Some [], s)
  | c :: cs' =>
      match renderComponent stored_todos s c with
      | (Some n, s1) =>
          let '(ns, s2) := render_all stored_todos s1 cs' in
          (cons n <$> ns, s2)
      | (None, s1) => (None, s1)
      end
  end.

(** [renderRoute]: the page is emptied first and the container is put in
    once every component is rendered, so a component that throws leaves
    the page empty. *)
Definition renderRoute (r : Route) (w : World) : World :=
  let '(kids, s) := render_all (todos w) (state w) (default [] (components r)) in
  with_app match kids with
           | Some kids => [El "div" [("class", "container")] None kids]
           | None => []
           end (with_state s w).

(** The route shown when nothing else matches. *)
Definition not_found : Route := {|
  path := None;
  title := None;
  components := Some [{|
    c_type := Some (TString "text"); c_value := Some "ไม่พบหน้า"; c_src := None; c_to := None;
    c_label := None; c_action := None; c_formId := None; c_items := None;
    c_collection := None; c_field := None; c_columns := None; c_rows := None;
    c_fields := None; c_submit := None; c_redirect := None |}]
|}.

(** The route [router] picks for the current address. *)
Definition current_route (w : World) : Route :=
  let start :=
    Js.or_dom (hash w) (Js.or_str (head (Js.keys (routes w))) "#/") in
  let full := "#" +:+ Js.remove_first "#" start in
  match Js.get full (routes w) with
  | Some r => r
  | None => match Js.get "#/" (routes w) with
            | Some r => r
            | None => not_found
            end
  end.

Definition router (w : World) : World := renderRoute (current_route w) w.

(** What [location.hash] reads after [location.hash = p]: one leading
    [#] of [p] is left out, the rest is written into the address as its
    fragment, and an empty fragment reads back as the empty string. *)
Definition hash_of (p : string) : string :=
  let frag := Js.encode_fragment (if Js.starts_with "#" p then Js.remove_first "#" p else p) in
  if String.eqb frag EmptyString then EmptyString else "#" +:+ frag.

(** [navigate]: the assignment changes the address, and the [hashchange]
    listener, which is [router], runs when the fragment did change. *)
Definition navigate (p : string) (w : World) : World :=
  let h := hash_of p in
  if String.eqb h (hash w) then w else router (with_hash h w).

(** *** Actions *)

(** The input types a browser knows; assigning any other string to
    [input.type] leaves a text input. *)
Definition input_types : list string :=
  ["hidden"; "text"; "search"; "tel"; "url"; "email"; "password"; "date";
   "month"; "week"; "time"; "datetime-local"; "number"; "range"; "color";
   "checkbox"; "radio"; "file"; "submit"; "image"; "reset"; "button"].

Definition dom_input_type (t : string) : string :=
  if bool_decide (t ∈ input_types) then t else "text".

(** The control [renderForm] creates for a field, with what it holds at
    the time of a submission: the value the browser reports for it and,
    for a file input, the picked files. *)
Definition form_control (f : Field) (held : string * list string) : Control :=
  let t := Js.toLowerCase (Js.or_str (f_type f) "text") in
  {| el_name := Js.or_str (Js.or_opt (f_name f) (f_id f)) "field";
     el_id := EmptyString;
     el_placeholder := EmptyString;
     el_type := if String.eqb t "textarea" then "textarea" else dom_input_type t;
     el_value := held.1;
     el_files := held.2 |}.

(** The form element of a form component at the time of a submission;
    [held i] is what the control of the field at place [i] holds then. *)
Definition form_element (cfg : Component) (held : nat -> string * list string) : FormEl :=
  imap (fun i f => form_control f (held i)) (default [] (c_fields cfg)).

(** [el.name || el.id || el.placeholder || 'field']. *)
Definition control_key (el : Control) : string :=
  Js.or_dom (el_name el) (Js.or_dom (el_id el) (Js.or_dom (el_placeholder el) "field")).

(** [el.type === 'file' ? (el.files && el.files[0]) : el.value]. *)
Definition control_value (el : Control) : Value :=
  if String.eqb (el_type el) "file"
  then match el_files el with
       | f :: _ => VFile f
       | [] => VUndef
       end
  else VStr (el_value el).

(** The [data] object filled from the controls in document order. *)
Definition extract (form : FormEl) : Record :=
  foldl (fun data el => Js.set (control_key el) (control_value el) data) [] form.

(** [{...data, id: Date.now()}]. *)
Definition new_record (form : FormEl) (now : Z) : Record :=
  Js.set "id" (VNum now) (extract form).

(** [state.collections[coll] = state.collections[coll] || []] and the
    [push] after it.  When the name gives a member of [Object.prototype]
    the assignment makes the object own what it inherited, which nothing
    the script reads or stores can tell, and [push] is not a function: a
    [TypeError] is thrown ([None]). *)
Definition push_record (coll : string) (r : Record) (s : State) : option State :=
  match collection s coll with
  | Js.Own rows => Some (with_collections (<[coll := rows ++ [r]]> (collections s)) s)
  | Js.Undefined => Some (with_collections (<[coll := [r]]> (collections s)) s)
  | Js.Inherited _ => None
  end.

(** The element [handleAction] reads the values from: the one the page
    has under [formId], else the one handed over in [__formEl]. *)
Definition resolve_form (doc : string -> option FormEl) (cfg : Cfg) : option FormEl :=
  match doc (Js.or_str (cfg_formId cfg) "__active_form") with
  | Some form => Some form
  | None => cfg_formEl cfg
  end.

(** [handleAction].  [doc] is [document.getElementById] on the page at
    the time of the call, seen through the form controls inside the
    element found; [now] is what [Date.now()] returns.  An exception ends
    the handler where it is thrown. *)
Definition handleAction (doc : string -> option FormEl) (now : Z)
    (action : string) (cfg : Cfg) (w : World) : World :=
  if String.eqb action "navigate" then navigate (Js.or_str (cfg_to cfg) "#/") w
  else if String.eqb action "submit" then
    match resolve_form doc cfg with
    | None => w
    | Some form =>
        let coll := Js.or_str (cfg_collection cfg) "posts" in
        if String.eqb coll EmptyString then w
        else
          match push_record coll (new_record form now) (state w) with
          | None => w
          | Some s1 =>
              let w1 := save (with_state s1 w) in
              if Js.truthy (cfg_redirect cfg)
              then navigate (default EmptyString (cfg_redirect cfg)) w1
              else router w1
          end
    end
  else w.

(** The collection a form component writes to. *)
Definition form_collection (cfg : Component) : string :=
  Js.or_str (Js.or_opt (c_collection cfg) (c_submit cfg ≫= submit_collection)) "forms".

(** Where a form component goes after a submission, if anywhere. *)
Definition form_redirect (cfg : Component) : option string :=
  Js.or_null (Js.or_opt (c_redirect cfg) (c_submit cfg ≫= submit_to)).

(** The object [form.onsubmit] passes to [handleAction]. *)
Definition form_cfg (cfg : Component) (form : FormEl) : Cfg := {|
  cfg_to := None;
  cfg_formId := None;
  cfg_formEl := Some form;
  cfg_collection := Some (form_collection cfg);
  cfg_redirect := form_redirect cfg
|}.

(** [form.onsubmit] of a form component whose controls hold [held]. *)
Definition form_onsubmit (doc : string -> option FormEl) (now : Z)
    (cfg : Component) (held : nat -> string * list string) (w : World) : World :=
  handleAction doc now "submit" (form_cfg cfg (form_element cfg held)) w.

(** A button hands its own component to [handleAction]; a component read
    from JSON carries no form element. *)
Definition button_cfg (c : Component) : Cfg := {|
  cfg_to := c_to c;
  cfg_formId := c_formId c;
  cfg_formEl := None;
  cfg_collection := c_collection c;
  cfg_redirect := c_redirect c
|}.

(** [el.onclick] of a button. *)
Definition button_onclick (doc : string -> option FormEl) (now : Z)
    (c : Component) (w : World) : World :=
  handleAction doc now (Js.or_str (c_action c) "navigate") (button_cfg c) w.

(** [el.onclick] of a link that was rendered: when the [href] attribute
    of the element starts with [#] the script navigates to the target of
    the component; otherwise it does nothing and the browser follows the
    link ([None]). *)
Definition link_onclick (c : Component) (w : World) : option World :=
  let target := Js.or_str (c_to c) "#/" in
  if Js.attribute_starts_with_hash target then Some (navigate target w) else None.

(** The post button of the composer.  [img] is the data URL the reader
    produced for the picked file, [None] when no file was picked;
    [now_id] and [now_ts] are the two readings of the clock taken while
    the post object is built. *)
Definition composer_post (img : option string) (cap : string)
    (now_id now_ts : Z) (w : World) : World :=
  match img with
  | None => w
  | Some data_url =>
      let s := state w in
      let p := {| p_id := Some now_id; p_user := username (currentUser s);
                  p_img := Some data_url; p_caption := Some cap;
                  p_likes := Some 0%Z; p_liked := false;
                  p_comments := Some []; p_ts := Some now_ts |} in
      navigate "#/feed" (save (with_state (with_posts (posts s ++ [p]) s) w))
  end.

(** The script from its first line to the [load] event. *)
Definition load (bp_routes : option (list Route)) (SAMPLE : Sample)
    (stored : option Persisted) (stored_todos : option (list string))
    (location_hash : string) : World :=
  router (save {| state := seed SAMPLE stored;
                  bp_state := stored;
                  todos := stored_todos;
                  hash := location_hash;
                  routes := routeMap bp_routes;
                  app := [] |}).

(** Reloading the page: the script runs again on what storage and the
    address bar hold, with whatever blueprint and sample data the server
    sends this time. *)
Definition reload (bp_routes : option (list Route)) (SAMPLE : Sample) (w : World) : World :=
  load bp_routes SAMPLE (bp_state w) (todos w) (hash w).

(** *** The definitions at work *)

Example escapeHtml_single : escapeHtml "a<b & c" = "a&lt;b &amp; c".
Proof. reflexivity. Qed.

(** A run of special characters is looked up as a whole and not found. *)
Example escapeHtml_run : escapeHtml "x<<y" = "xundefinedy".
Proof. reflexivity. Qed.

(** A component of the given type and nothing else. *)
Definition typed (t : option TypeValue) : Component := {|
  c_type := t; c_value := None; c_src := None; c_to := None;
  c_label := None; c_action := None; c_formId := None; c_items := None;
  c_collection := None; c_field := None; c_columns := None; c_rows := None;
  c_fields := None; c_submit := None; c_redirect := None |}.

(** The kind is the type in lowercase, letter by letter for any script;
    the Kelvin sign is a capital of [k], and a capital sigma at the end
    of a word has a lowercase form of its own. *)
Example kind_is_lowercased :
  kind (typed (Some (TString "TeXt"))) = Some "text" /\
  kind (typed (Some (TString "ÉCRAN"))) = Some "écran" /\
  kind (typed (Some (TString "linK"))) = Some "link" /\
  kind (typed (Some (TString "ΟΔΌΣ"))) = Some "οδός" /\
  kind (typed (Some (TString EmptyString))) = Some "text" /\
  kind (typed None) = Some "text" /\
  kind (typed (Some TOther)) = None.
Proof. by vm_compute. Qed.

(** Numbers above 2^53 are shown with the digits that tell them from
    their neighbours, and from 10^21 on with an exponent. *)
Example number_text_examples :
  Js.number_text 1759000000000 = "1759000000000" /\
  Js.number_text (-7) = "-7" /\
  Js.number_text (2 ^ 53 + 1) = "9007199254740992" /\
  Js.number_text (2 ^ 60) = "1152921504606847000" /\
  Js.number_text (10 ^ 21) = "1e+21" /\
  Js.number_text 123456789012345678901234567890 = "1.2345678901234568e+29".
Proof. by vm_compute. Qed.

(** Reading a property goes on to the prototype. *)
Example inherited_properties :
  Js.prop "name" [("name", VStr "Ann")] = Js.Own (VStr "Ann") /\
  Js.prop "email" [("name", VStr "Ann")] = Js.Undefined /\
  Js.prop "constructor" [("name", VStr "Ann")] = Js.Inherited "constructor" /\
  to_String (VProto "constructor") = "function Object() { [native code] }".
Proof. by vm_compute. Qed.

(** Index-like keys come first, in numeric order; a route without a path
    is filed under the root path. *)
Example routeMap_keys :
  Js.keys (routeMap (Some [
    {| path := Some "#/home"; title := None; components := None |};
    {| path := Some "10"; title := None; components := None |};
    {| path := None; title := None; components := None |};
    {| path := Some "2"; title := None; components := None |};
    {| path := Some "#/home"; title := Some "again"; components := None |}])) =
  ["2"; "10"; "#/home"; "#/"].
Proof. reflexivity. Qed.

(** The address holds the fragment percent-encoded. *)
Example hash_of_examples :
  hash_of "x" = "#x" /\ hash_of "#" = EmptyString /\ hash_of "#/a" = "#/a" /\
  hash_of "#/a b" = "#/a%20b" /\ hash_of "#/ร้าน" = "#/%E0%B8%A3%E0%B9%89%E0%B8%B2%E0%B8%99" /\
  hash_of "##x" = "##x" /\ hash_of "#/a%20b" = "#/a%20b".
Proof. by vm_compute. Qed.

(** The [href] a link tests is the attribute as the parser read it. *)
Example href_examples :
  Js.attribute_starts_with_hash "#/a" = true /\
  Js.attribute_starts_with_hash "&#35;/a" = true /\
  Js.attribute_starts_with_hash "&#x23;/a" = true /\
  Js.attribute_starts_with_hash "&num;/a" = true /\
  Js.attribute_starts_with_hash "&amp;#/a" = false /\
  Js.attribute_starts_with_hash " #/a" = false /\
  Js.attribute_starts_with_hash "page.html#a" = false.
Proof. by vm_compute. Qed.

Example extract_example :
  new_record
    [{| el_name := "email"; el_id := EmptyString; el_placeholder := EmptyString;
        el_type := "email"; el_value := "a@b.c"; el_files := [] |};
     {| el_name := EmptyString; el_id := EmptyString; el_placeholder := "Your name";
        el_type := "text"; el_value := "Ann"; el_files := [] |};
     {| el_name := "id"; el_id := EmptyString; el_placeholder := EmptyString;
        el_type := "text"; el_value := "42"; el_files := [] |}] 1759000000000 =
  [("email", VStr "a@b.c"); ("Your name", VStr "Ann"); ("id", VNum 1759000000000)].
Proof. reflexivity. Qed.

(** *** Properties of rendering *)

Lemma or_str_nonempty (a : option string) (d : string) :
  d ≠ EmptyString -> Js.or_str a d ≠ EmptyString.
Proof.
  intros Hd. unfold Js.or_str. destruct a as [s|]; [|done].
  destruct (String.eqb_spec s EmptyString); done.
Qed.

Lemma or_str_truthy (a : option string) (d : string) :
  Js.truthy a = true -> Some (Js.or_str a d) = a.
Proof.
  unfold Js.truthy, Js.or_str. destruct a as [s|]; [|done].
  destruct (String.eqb_spec s EmptyString); done.
Qed.

Lemma or_str_falsy (a : option string) (d : string) :
  Js.truthy a = false -> Js.or_str a d = d.
Proof.
  unfold Js.truthy, Js.or_str. destruct a as [s|]; [|done].
  destruct (String.eqb_spec s EmptyString); done.
Qed.

(** The loop over two lists of components run one after the other. *)
Definition then_render (td : option (list string)) (first : option (list Node) * State)
    (cs : list Component) : option (list Node) * State :=
  match first with
  | (Some ns1, s1) => ((fun ns2 => ns1 ++ ns2) <$> (render_all td s1 cs).1,
                       (render_all td s1 cs).2)
  | (None, s1) => (None, s1)
  end.

Lemma render_all_app (td : option (list string)) (s : State) (l1 l2 : list Component) :
  render_all td s (l1 ++ l2) = then_render td (render_all td s l1) l2.
Proof.
  revert s. induction l1 as [|c l1 IH]; intros s; simpl.
  - by destruct (render_all td s l2) as [[ns|] s2].
  - destruct (renderComponent td s c) as [[n|] s1]; [|done]. rewrite IH.
    destruct (render_all td s1 l1) as [[ns1|] s2]; simpl; [|done].
    destruct (render_all td s2 l2) as [[ns2|] s3]; simpl; done.
Qed.

Lemma render_all_length (td : option (list string)) (s : State) (cs : list Component)
    (ns : list Node) :
  (render_all td s cs).1 = Some ns -> length ns = length cs.
Proof.
  revert s ns. induction cs as [|c cs IH]; intros s ns; simpl.
  - by intros [= <-].
  - destruct (renderComponent td s c) as [[n|] s1]; [|done]. specialize (IH s1).
    destruct (render_all td s1 cs) as [[ns'|] s2]; simpl in *; [|done].
    intros [= <-]. simpl. f_equal. by apply IH.
Qed.

(** Steps through the chain of tests on the kind. *)
Ltac by_kind :=
  unfold renderComponent;
  match goal with
  | |- context [kind ?c] => destruct (kind c) as [?t|] eqn:?Hkind
  end;
  [unfold renderKind;
   repeat match goal with
          | |- context [String.eqb ?t ?k] => destruct (String.eqb_spec t k)
          end
  |].

(** Only a feed touches the state while rendering. *)
Lemma renderComponent_state (td : option (list string)) (s : State) (c : Component) :
  kind c ≠ Some "feed" -> (renderComponent td s c).2 = s.
Proof. intros Hk. by_kind; try done. by subst. Qed.

Lemma insert_post_perm (x : Post) (l : list Post) : insert_post x l ≡ₚ x :: l.
Proof.
  induction l as [|y l IH]; simpl; [done|].
  destruct (by_ts y x <=? 0)%Z; [|done].
  rewrite IH. apply Permutation_swap.
Qed.

Lemma sort_posts_perm (l : list Post) : sort_posts l ≡ₚ l.
Proof.
  unfold sort_posts.
  assert (forall acc, foldl (fun acc x => insert_post x acc) acc l ≡ₚ acc ++ l) as H.
  { induction l as [|x l IH]; intros acc; simpl.
    - by rewrite app_nil_r.
    - rewrite IH, insert_post_perm. simpl. apply Permutation_middle. }
  apply (H []).
Qed.

(** Rendering reorders the posts at most and leaves the rest alone. *)
Definition same_data (s s' : State) : Prop :=
  currentUser s' = currentUser s /\ users s' = users s /\ posts s' ≡ₚ posts s /\
  notifications s' = notifications s /\ messages s' = messages s /\
  collections s' = collections s.

Lemma same_data_refl (s : State) : same_data s s.
Proof. by repeat split. Qed.

Lemma same_data_trans (s1 s2 s3 : State) :
  same_data s1 s2 -> same_data s2 s3 -> same_data s1 s3.
Proof.
  intros (?&?&?&?&?&?) (?&?&?&?&?&?). repeat split; try congruence.
  by etrans.
Qed.

Lemma renderComponent_same_data (td : option (list string)) (s : State) (c : Component) :
  same_data s (renderComponent td s c).2.
Proof.
  by_kind; try apply same_data_refl.
  unfold renderFeed; simpl. repeat split; simpl. apply sort_posts_perm.
Qed.

Lemma render_all_same_data (td : option (list string)) (s : State) (cs : list Component) :
  same_data s (render_all td s cs).2.
Proof.
  revert s. induction cs as [|c cs IH]; intros s; simpl; [apply same_data_refl|].
  pose proof (renderComponent_same_data td s c) as H1.
  destruct (renderComponent td s c) as [[n|] s1]; [|done]. specialize (IH s1).
  destruct (render_all td s1 cs) as [ns s2]; simpl in *.
  by eapply same_data_trans.
Qed.

Lemma renderRoute_same_data (r : Route) (w : World) :
  same_data (state w) (state (renderRoute r w)).
Proof.
  unfold renderRoute.
  pose proof (render_all_same_data (todos w) (state w) (default [] (components r))) as H.
  by destruct (render_all _ _ _).
Qed.

Lemma renderRoute_bp_state (r : Route) (w : World) :
  bp_state (renderRoute r w) = bp_state w.
Proof. unfold renderRoute. by destruct (render_all _ _ _). Qed.

Lemma router_same_data (w : World) : same_data (state w) (state (router w)).
Proof. apply renderRoute_same_data. Qed.

Lemma router_bp_state (w : World) : bp_state (router w) = bp_state w.
Proof. apply renderRoute_bp_state. Qed.

Lemma navigate_same_data (p : string) (w : World) :
  same_data (state w) (state (navigate p w)).
Proof.
  unfold navigate. destruct (String.eqb _ _); [apply same_data_refl|].
  apply (router_same_data (with_hash _ w)).
Qed.

Lemma navigate_bp_state (p : string) (w : World) :
  bp_state (navigate p w) = bp_state w.
Proof.
  unfold navigate. destruct (String.eqb _ _); [done|].
  by rewrite router_bp_state.
Qed.

(** *** Appending strings *)

Lemma append_cons (a : ascii) (s t : string) : String a s +:+ t = String a (s +:+ t).
Proof. reflexivity. Qed.

Lemma append_empty_l (s : string) : EmptyString +:+ s = s.
Proof. reflexivity. Qed.

Lemma append_empty_r (s : string) : s +:+ EmptyString = s.
Proof. induction s as [|a s IH]; [done|]. by rewrite append_cons, IH. Qed.

Lemma append_assoc (s t u : string) : (s +:+ t) +:+ u = s +:+ (t +:+ u).
Proof. induction s as [|a s IH]; [done|]. by rewrite !append_cons, IH. Qed.

Lemma chars_append (s t : string) :
  list_ascii_of_string (s +:+ t) = list_ascii_of_string s ++ list_ascii_of_string t.
Proof. induction s as [|a s IH]; [done|]. rewrite append_cons. simpl. by rewrite IH. Qed.

(** *** Pages and components used as examples *)

Definition text_of (v : string) : Component := {|
  c_type := Some (TString "text"); c_value := Some v; c_src := None; c_to := None;
  c_label := None; c_action := None; c_formId := None; c_items := None;
  c_collection := None; c_field := None; c_columns := None; c_rows := None;
  c_fields := None; c_submit := None; c_redirect := None |}.


Definition no_sample : Sample :=
  {| s_users := None; s_posts := None; s_notifications := None;
     s_messages := None; s_collections := None |}.

Definition empty_state : State := seed no_sample None.

(** A page just loaded with no blueprint, no sample data and empty
    storage. *)
Definition blank_world : World := load None no_sample None None EmptyString.

(** **** Unknown kinds *)



Definition container (kids : list Node) : Node :=
  El "div" [("class", "container")] None kids.

(** The route [r] with other components. *)
Definition with_components (cs : list Component) (r : Route) : Route :=
  {| path := path r; title := title r; components := Some cs |}.

Lemma renderRoute_nodes (r : Route) (w : World) (ns : list Node) (s : State) :
  render_all (todos w) (state w) (default [] (components r)) = (Some ns, s) ->
  renderRoute r w = with_app [container ns] (with_state s w).
Proof. intros H. unfold renderRoute. by rewrite H. Qed.





(** **** Missing collections *)

Definition grid_of (coll : string) : Component := {|
  c_type := Some (TString "grid"); c_value := None; c_src := None; c_to := None;
  c_label := None; c_action := None; c_formId := None; c_items := None;
  c_collection := Some coll; c_field := None; c_columns := None; c_rows := None;
  c_fields := None; c_submit := None; c_redirect := None |}.

Definition list_of (coll : string) : Component := {|
  c_type := Some (TString "list"); c_value := None; c_src := None; c_to := None;
  c_label := None; c_action := None; c_formId := None; c_items := None;
  c_collection := Some coll; c_field := None; c_columns := None; c_rows := None;
  c_fields := None; c_submit := None; c_redirect := None |}.

(** A list that names a collection and has items of its own. *)
Definition list_with (coll : string) (items : list Value) : Component := {|
  c_type := Some (TString "list"); c_value := None; c_src := None; c_to := None;
  c_label := None; c_action := None; c_formId := None; c_items := Some items;
  c_collection := Some coll; c_field := None; c_columns := None; c_rows := None;
  c_fields := None; c_submit := None; c_redirect := None |}.

(** A table that names a collection and has rows of its own. *)
Definition table_with (coll : string) (rows : list Record) : Component := {|
  c_type := Some (TString "table"); c_value := None; c_src := None; c_to := None;
  c_label := None; c_action := None; c_formId := None; c_items := None;
  c_collection := Some coll; c_field := None;
  c_columns := Some [{| col_header := Some "Name"; col_field := Some "name" |}];
  c_rows := Some rows; c_fields := None; c_submit := None; c_redirect := None |}.

Definition one_post : Post := {|
  p_id := Some 1%Z; p_user := "you"; p_img := Some "a.png"; p_caption := None;
  p_likes := None; p_liked := false; p_comments := None; p_ts := Some 1%Z |}.

(** C9, as stated, fails in three ways, each with no collection of the
    given name in the state.  A grid never looks at its collection: bound
    to photos, it shows the image of the one post there is.  A list that
    has items of its own and a table that has rows of its own show them,
    whatever collection they name.  And for a name that
    [Object.prototype] has a member for, what [state.collections] gives
    is that member: rendering the list throws, and the route that holds
    it between two texts is left empty. *)
Lemma missing_collection_not_always_empty :
  collections (with_posts [one_post] empty_state) !! "photos" = None /\
  renderComponent None (with_posts [one_post] empty_state) (grid_of "photos") =
    (Some (El "div" [("class", "grid")] None [El "img" [("src", "a.png")] None []]),
     with_posts [one_post] empty_state) /\
  collections empty_state !! "orders" = None /\
  renderComponent None empty_state (list_with "orders" [VStr "tea"]) =
    (Some (El "ul" card None [El "li" [] None [Html "tea"]]), empty_state) /\
  (renderComponent None empty_state (table_with "orders" [[("name", VStr "tea")]])).1 =
    Some (El "div" card None
            [El "div" [("class", "table-wrap")] None
               [El "table" [] None
                  [El "thead" [] None [El "tr" [] None [El "th" [] None [Html "Name"]]];
                   El "tbody" [] None [El "tr" [] None [El "td" [] None [Html "tea"]]]]]]) /\
  collections empty_state !! "constructor" = None /\
  renderComponent None empty_state (list_of "constructor") = (None, empty_state) /\
  app (renderRoute
         (with_components [text_of "a"; list_of "constructor"; text_of "b"] not_found)
         blank_world) = [].
Proof. repeat split; by vm_compute. Qed.

(** The header row of a table. *)
Definition table_head (c : Component) : Node :=
  El "thead" [] None
    [El "tr" [] None
       (map (fun col =>
               El "th" [] None
                 [Html (escapeHtml
                    (Js.or_str (Js.or_opt (col_header col) (col_field col)) EmptyString))])
            (default [] (c_columns c)))].

(** A table with the given rows. *)
Definition table_of (c : Component) (rows : list Record) : Node :=
  El "div" card None
    [El "div" [("class", "table-wrap")] None
       [El "table" [] None
          [table_head c;
           El "tbody" [] None
             (map (fun r => El "tr" [] None (map (table_cell r) (default [] (c_columns c))))
                  rows)]]].

(** The loop over components of which one renders to [n] whatever the
    order of the posts. *)
Lemma render_all_around (td : option (list string)) (s : State) (c : Component)
    (n : State -> option Node) (before after : list Component) :
  (forall s0, same_data s s0 -> renderComponent td s0 c = (n s0, s0)) ->
  render_all td s (before ++ c :: after) =
    match render_all td s before with
    | (Some ns1, s1) =>
        match n s1 with
        | Some n1 => ((fun ns2 => ns1 ++ n1 :: ns2) <$> (render_all td s1 after).1,
                      (render_all td s1 after).2)
        | None => (None, s1)
        end
    | (None, s1) => (None, s1)
    end.
Proof.
  intros Hc. rewrite render_all_app. unfold then_render.
  pose proof (render_all_same_data td s before) as Hsame.
  destruct (render_all td s before) as [[ns1|] s1]; [|done]. simpl in *.
  rewrite (Hc s1 Hsame). destruct (n s1) as [n1|]; [|done].
  by destruct (render_all td s1 after) as [[ns2|] s2].
Qed.

Lemma missing_list (td : option (list string)) (s : State) (c : Component) (nm : string) :
  c_collection c = Some nm -> collections s !! nm = None ->
  kind c = Some "list" -> c_items c = None ->
  renderComponent td s c =
    (if bool_decide (nm ∈ Js.proto_members) then None else Some (El "ul" card None []), s).
Proof.
  intros Hc Hnone Hk Hit. unfold renderComponent. rewrite Hk. unfold renderKind. simpl.
  unfold bindItems, collection, Js.lookup. rewrite Hit, Hc. simpl. rewrite Hnone.
  destruct (String.eqb_spec nm EmptyString) as [->|Hne]; simpl; [by vm_compute|].
  by case_bool_decide.
Qed.

Lemma missing_table (td : option (list string)) (s : State) (c : Component) (nm : string) :
  c_collection c = Some nm -> collections s !! nm = None ->
  kind c = Some "table" -> c_rows c = None ->
  renderComponent td s c =
    (if bool_decide (nm ∈ Js.proto_members) then None else Some (table_of c []), s).
Proof.
  intros Hc Hnone Hk Hrows. unfold renderComponent. rewrite Hk. unfold renderKind. simpl.
  unfold renderTable, table_rows, collection, Js.lookup. rewrite Hrows, Hc. simpl.
  rewrite Hnone.
  destruct (String.eqb_spec nm EmptyString) as [->|Hne]; simpl; [by vm_compute|].
  by case_bool_decide.
Qed.

(** C9, amended.  When the collection a component names is not in
    [state.collections] and the name is not that of a member of
    [Object.prototype]: a list without items of its own renders no item
    and a table without rows of its own renders its header and no row,
    nothing is thrown, the state is untouched, and the other components
    of the route are rendered as they are without it, the empty list or
    table standing at its place.  A list or a table that has items or
    rows of its own shows those; a grid does not read the collections at
    all and shows the images of [state.posts]; and for a name such as
    [constructor] the list or table throws. *)
Theorem missing_collection_empty (td : option (list string)) (s : State)
    (c : Component) (nm : string) (before after : list Component) :
  c_collection c = Some nm ->
  collections s !! nm = None ->
  (kind c = Some "list" -> c_items c = None -> nm ∉ Js.proto_members ->
     renderComponent td s c = (Some (El "ul" card None []), s)) /\
  (kind c = Some "table" -> c_rows c = None -> nm ∉ Js.proto_members ->
     renderComponent td s c = (Some (table_of c []), s)) /\
  (forall empty,
     (kind c = Some "list" /\ c_items c = None /\ empty = El "ul" card None []) \/
     (kind c = Some "table" /\ c_rows c = None /\ empty = table_of c []) ->
     nm ∉ Js.proto_members ->
     render_all td s (before ++ c :: after) =
       match render_all td s before with
       | (Some ns1, s1) =>
           ((fun ns2 => ns1 ++ empty :: ns2) <$> (render_all td s1 after).1,
            (render_all td s1 after).2)
       | (None, s1) => (None, s1)
       end /\
     forall r w ns1 s1 ns2 s2,
       state w = s -> todos w = td ->
       render_all td s before = (Some ns1, s1) ->
       render_all td s1 after = (Some ns2, s2) ->
       renderRoute (with_components (before ++ c :: after) r) w =
         with_app [container (ns1 ++ empty :: ns2)] (with_state s2 w)) /\
  (kind c = Some "list" -> forall items, c_items c = Some items ->
     renderComponent td s c =
       (Some (El "ul" card None
                (map (fun it => El "li" [] None [Html (escapeHtml (to_String it))]) items)),
        s)) /\
  (kind c = Some "table" -> forall rows, c_rows c = Some rows ->
     renderComponent td s c = (Some (table_of c rows), s)) /\
  (kind c = Some "grid" ->
     renderComponent td s c =
       (Some (El "div" [("class", "grid")] None
                (map (fun src => El "img" [("src", src)] None [])
                     (omap (fun p => Js.or_null (p_img p)) (posts s)))), s)) /\
  (nm ∈ Js.proto_members ->
     (kind c = Some "list" /\ c_items c = None) \/ (kind c = Some "table" /\ c_rows c = None) ->
     renderComponent td s c = (None, s)).
Proof.
  intros Hc Hnone.
  split; [|split; [|split; [|split; [|split; [|split]]]]].
  - intros Hk Hit Hnm. rewrite (missing_list td s c nm) by done. by case_bool_decide.
  - intros Hk Hrows Hnm. rewrite (missing_table td s c nm) by done. by case_bool_decide.
  - intros empty Hcase Hnm.
    assert (forall s0, same_data s s0 -> renderComponent td s0 c = (Some empty, s0)) as Hany.
    { intros s0 (_ & _ & _ & _ & _ & Hco).
      assert (collections s0 !! nm = None) as Hnone0 by (by rewrite Hco).
      destruct Hcase as [(Hk & Hit & ->)|(Hk & Hrows & ->)].
      - rewrite (missing_list td s0 c nm) by done. by case_bool_decide.
      - rewrite (missing_table td s0 c nm) by done. by case_bool_decide. }
    pose proof (render_all_around td s c (fun _ => Some empty) before after Hany) as Hall.
    split; [exact Hall|].
    intros r w ns1 s1 ns2 s2 Hs Htd H1 H2. apply renderRoute_nodes. simpl.
    rewrite Hs, Htd, Hall, H1, H2. done.
  - intros Hk items Hit. unfold renderComponent. rewrite Hk. unfold renderKind. simpl.
    unfold bindItems. by rewrite Hit.
  - intros Hk rows Hrows. unfold renderComponent. rewrite Hk. unfold renderKind. simpl.
    unfold renderTable, table_rows. by rewrite Hrows.
  - intros Hk. unfold renderComponent. by rewrite Hk.
  - intros Hnm [(Hk & Hit)|(Hk & Hrows)].
    + rewrite (missing_list td s c nm) by done. by case_bool_decide.
    + rewrite (missing_table td s c nm) by done. by case_bool_decide.
Qed.

Lemma missing_collection_empty_witness :
  c_collection (list_of "orders") = Some "orders" /\
  collections (state blank_world) !! "orders" = None /\
  ("orders" ∉ Js.proto_members) /\
  app (renderRoute (with_components [text_of "a"; list_of "orders"; text_of "b"] not_found)
         blank_world) =
    [container [El "div" card None [Html "a"]; El "ul" card None [];
                El "div" card None [Html "b"]]].
Proof.
  assert (c_collection (list_of "orders") = Some "orders") as H1 by reflexivity.
  assert (collections (state blank_world) !! "orders" = None) as H2 by reflexivity.
  assert ("orders" ∉ Js.proto_members) as H3.
  { apply (bool_decide_unpack _). vm_compute. exact I. }
  split; [exact H1|]. split; [exact H2|]. split; [exact H3|].
  destruct (missing_collection_empty None (state blank_world) (list_of "orders") "orders"
              [text_of "a"] [text_of "b"] H1 H2) as (_ & _ & Hroute & _).
  destruct (Hroute (El "ul" card None [])
              (or_introl (conj eq_refl (conj eq_refl eq_refl))) H3) as (_ & Hr).
  exact (f_equal app
           (Hr not_found blank_world [El "div" card None [Html "a"]] (state blank_world)
               [El "div" card None [Html "b"]] (state blank_world)
               eq_refl eq_refl eq_refl eq_refl)).
Defined.
(** **** Routing *)

Lemma hash_of_full (p : string) :
  hash_of p ≠ EmptyString -> "#" +:+ Js.remove_first "#" (hash_of p) = hash_of p.
Proof.
  unfold hash_of. destruct (String.eqb _ _); [done|]. intros _. simpl. reflexivity.
Qed.

Lemma hash_of_or_dom (p : string) (d : string) :
  hash_of p ≠ EmptyString -> Js.or_dom (hash_of p) d = hash_of p.
Proof.
  intros H. unfold Js.or_dom. by destruct (String.eqb_spec (hash_of p) EmptyString).
Qed.

(** The route [router] falls back to. *)
Definition fallback_route (w : World) : Route :=
  match Js.get "#/" (routes w) with
  | Some r => r
  | None => not_found
  end.

Definition home_route : Route :=
  {| path := Some "#/home"; title := Some "Home"; components := Some [text_of "home"] |}.

Definition root_route : Route :=
  {| path := Some "#/"; title := Some "Root"; components := Some [text_of "root"] |}.

(** A route whose path is written the way the address holds a space. *)
Definition encoded_route : Route :=
  {| path := Some "#/a%20b"; title := Some "Encoded";
     components := Some [text_of "encoded"] |}.

Definition two_routes : World :=
  load (Some [home_route; root_route]) no_sample None None EmptyString.

Definition encoded_routes : World :=
  load (Some [root_route; encoded_route]) no_sample None None EmptyString.

(** C5, as stated, fails in two ways.  When the blueprint has a route at
    [#/] that is not its first route, the page opens on the first route
    and a navigation to an unknown path shows the route at [#/], which is
    neither the first route nor the not-found placeholder; the first
    route is what a navigation to the bare [#] shows, which leaves the
    address without a hash.  And the route is looked up under the
    address as the browser holds it: a navigation to a path with a space
    in it, which no route has, shows the route whose path is that path
    percent-encoded, which is neither the first route nor the not-found
    placeholder either. *)
Lemma unknown_path_not_first_route :
  app two_routes = [container [El "div" card None [Html "home"]]] /\
  Js.get "#/zzz" (routes two_routes) = None /\
  app (navigate "#/zzz" two_routes) = [container [El "div" card None [Html "root"]]] /\
  app (renderRoute home_route two_routes) = [container [El "div" card None [Html "home"]]] /\
  app (renderRoute not_found two_routes) =
    [container [El "div" card None [Html "ไม่พบหน้า"]]] /\
  hash (navigate "#" (navigate "#/zzz" two_routes)) = EmptyString /\
  app (navigate "#" (navigate "#/zzz" two_routes)) =
    [container [El "div" card None [Html "home"]]] /\
  app encoded_routes = [container [El "div" card None [Html "root"]]] /\
  Js.get "#/a b" (routes encoded_routes) = None /\
  hash (navigate "#/a b" encoded_routes) = "#/a%20b" /\
  app (navigate "#/a b" encoded_routes) = [container [El "div" card None [Html "encoded"]]].
Proof. repeat split; by vm_compute. Qed.

(** C5, amended.  A navigation to a path changes the address to that
    path percent-encoded.  When that address is not empty and has no
    route registered under it, the router renders the route registered
    under [#/] (a route whose path is [#/] or missing), wherever it
    stands in the blueprint, and the not-found placeholder when there is
    none; the first route is not consulted.  When the address is the one
    the page is at already, nothing is rendered anew. *)
Theorem unknown_path_fallback (p : string) (w : World) :
  hash_of p ≠ EmptyString ->
  Js.get (hash_of p) (routes w) = None ->
  (hash_of p ≠ hash w ->
   navigate p w = renderRoute (fallback_route w) (with_hash (hash_of p) w)) /\
  (hash_of p = hash w -> navigate p w = w) /\
  hash (navigate p w) = hash_of p /\
  (forall r, Js.get "#/" (routes w) = Some r -> fallback_route w = r) /\
  (Js.get "#/" (routes w) = None -> fallback_route w = not_found).
Proof.
  intros Hne Hnone.
  assert (hash_of p ≠ hash w ->
          navigate p w = renderRoute (fallback_route w) (with_hash (hash_of p) w)) as Hnav.
  { intros Hchg. unfold navigate. destruct (String.eqb_spec (hash_of p) (hash w)); [done|].
    unfold router, current_route. simpl.
    rewrite hash_of_or_dom by done. rewrite hash_of_full by done.
    rewrite Hnone. reflexivity. }
  assert (hash_of p = hash w -> navigate p w = w) as Hsame.
  { intros He. unfold navigate. by destruct (String.eqb_spec (hash_of p) (hash w)). }
  split; [exact Hnav|]. split; [exact Hsame|]. split; [|split].
  - destruct (decide (hash_of p = hash w)) as [He|Hchg].
    + by rewrite (Hsame He).
    + rewrite (Hnav Hchg). unfold renderRoute. by destruct (render_all _ _ _).
  - intros r Hr. unfold fallback_route. by rewrite Hr.
  - intros Hr. unfold fallback_route. by rewrite Hr.
Qed.

Lemma unknown_path_fallback_witness :
  hash_of "#/zzz" ≠ EmptyString /\
  hash_of "#/zzz" ≠ hash two_routes /\
  Js.get (hash_of "#/zzz") (routes two_routes) = None /\
  navigate "#/zzz" two_routes = renderRoute root_route (with_hash "#/zzz" two_routes).
Proof.
  assert (hash_of "#/zzz" ≠ EmptyString) as H1 by (vm_compute; discriminate).
  assert (hash_of "#/zzz" ≠ hash two_routes) as H2 by (vm_compute; discriminate).
  assert (Js.get (hash_of "#/zzz") (routes two_routes) = None) as H3 by reflexivity.
  split; [exact H1|]. split; [exact H2|]. split; [exact H3|].
  destruct (unknown_path_fallback "#/zzz" two_routes H1 H3) as (Hnav & _).
  exact (Hnav H2).
Defined.

(** **** Seeding *)

(** The state as it comes back from storage: records lose what JSON
    cannot carry. *)
Definition json_state (s : State) : State :=
  with_collections (fmap (M := gmap string) (map json_record) (collections s)) s.

Lemma seed_persist (SAMPLE : Sample) (s : State) :
  seed SAMPLE (Some (persist s)) = json_state s.
Proof. by destruct s. Qed.

Lemma load_state (bp : option (list Route)) (SAMPLE : Sample)
    (stored : option Persisted) (td : option (list string)) (h : string) :
  same_data (seed SAMPLE stored) (state (load bp SAMPLE stored td h)).
Proof. unfold load. set (w0 := save _). exact (router_same_data w0). Qed.

Lemma load_bp_state (bp : option (list Route)) (SAMPLE : Sample)
    (stored : option Persisted) (td : option (list string)) (h : string) :
  bp_state (load bp SAMPLE stored td h) = Some (persist (seed SAMPLE stored)).
Proof. unfold load. by rewrite router_bp_state. Qed.

(** C6.  What the persisted state holds is never taken from the sample
    data again: a reload keeps every part found in storage (the posts up
    to the order a feed sorts them into), so every collection found there
    comes back with the rows it had; the sample data is read only for a
    part that storage lacks; and since the first load persists every
    part, a later load gives the same state whatever sample data it is
    handed. *)
Theorem seeded_only_when_absent (bp : option (list Route)) (SAMPLE : Sample)
    (w : World) (ps : Persisted) :
  bp_state w = Some ps ->
  (forall m, ps_collections ps = Some m ->
     collections (state (reload bp SAMPLE w)) = m /\
     forall nm rows, m !! nm = Some rows ->
       collections (state (reload bp SAMPLE w)) !! nm = Some rows) /\
  (forall l, ps_posts ps = Some l ->
     posts (seed SAMPLE (bp_state w)) = l /\ posts (state (reload bp SAMPLE w)) ≡ₚ l) /\
  (forall l, ps_users ps = Some l -> users (state (reload bp SAMPLE w)) = l) /\
  (forall l, ps_notifications ps = Some l ->
     notifications (state (reload bp SAMPLE w)) = l) /\
  (forall l, ps_messages ps = Some l -> messages (state (reload bp SAMPLE w)) = l) /\
  (forall u, ps_currentUser ps = Some u -> currentUser (state (reload bp SAMPLE w)) = u) /\
  (ps_collections ps = None ->
     collections (state (reload bp SAMPLE w)) = default ∅ (s_collections SAMPLE)) /\
  (forall bp' SAMPLE' SAMPLE'' stored td h,
     seed SAMPLE'' (bp_state (load bp' SAMPLE' stored td h)) =
     json_state (seed SAMPLE' stored)).
Proof.
  intros Hps.
  destruct (load_state bp SAMPLE (bp_state w) (todos w) (hash w))
    as (Hcu & Hus & Hpo & Hno & Hme & Hco).
  fold (reload bp SAMPLE w) in Hcu, Hus, Hpo, Hno, Hme, Hco.
  rewrite Hps in *. unfold seed in *. simpl in *.
  split; [|split; [|split; [|split; [|split; [|split; [|split]]]]]].
  - intros m H. rewrite H in Hco. split; [done|]. intros nm rows Hrows. by rewrite Hco.
  - intros l H. rewrite H in Hpo |- *. done.
  - intros l H. by rewrite H in Hus.
  - intros l H. by rewrite H in Hno.
  - intros l H. by rewrite H in Hme.
  - intros u H. by rewrite H in Hcu.
  - intros H. by rewrite H in Hco.
  - intros bp' SAMPLE' SAMPLE'' stored td h.
    rewrite load_bp_state. apply seed_persist.
Qed.

Definition lead_row : Record := [("email", VStr "a@b.c"); ("id", VNum 7)].

Definition stored_leads : Persisted := {|
  ps_currentUser := None; ps_users := None; ps_posts := None;
  ps_notifications := None; ps_messages := None;
  ps_collections := Some {[ "leads" := [lead_row] ]}
|}.

Definition sample_leads : Sample := {|
  s_users := None; s_posts := None; s_notifications := None; s_messages := None;
  s_collections := Some {[ "leads" := [] ]}
|}.

Definition stored_world : World := {|
  state := empty_state; bp_state := Some stored_leads; todos := None;
  hash := EmptyString; routes := []; app := []
|}.

Lemma seeded_only_when_absent_witness :
  bp_state stored_world = Some stored_leads /\
  collections (state (reload None sample_leads stored_world)) !! "leads" = Some [lead_row].
Proof.
  assert (bp_state stored_world = Some stored_leads) as H by reflexivity.
  split; [exact H|].
  destruct (seeded_only_when_absent None sample_leads stored_world stored_leads H)
    as (Hcoll & _).
  destruct (Hcoll {[ "leads" := [lead_row] ]} eq_refl) as (_ & Hrows).
  apply Hrows. reflexivity.
Defined.

(** **** Reading and writing object properties *)

Lemma get_add_new_eq {V} (k : string) (v : V) (o : Js.obj V) :
  Js.get k o = None -> Js.get k (Js.add_new k v o) = Some v.
Proof.
  induction o as [|[k' v'] o IH]; simpl.
  - intros _. by rewrite String.eqb_refl.
  - destruct (String.eqb_spec k' k) as [->|Hne]; [done|]. intros Hget.
    destruct (Js.array_index k) as [n|], (Js.array_index k') as [n'|]; simpl;
      try destruct (n <? n')%N; simpl;
      rewrite ?String.eqb_refl; try done;
      destruct (String.eqb_spec k' k); try done; by apply IH.
Qed.

Lemma get_add_new_ne {V} (k k0 : string) (v : V) (o : Js.obj V) :
  k ≠ k0 -> Js.get k0 (Js.add_new k v o) = Js.get k0 o.
Proof.
  intros Hne. induction o as [|[k' v'] o IH]; simpl.
  - by destruct (String.eqb_spec k k0).
  - destruct (Js.array_index k) as [n|], (Js.array_index k') as [n'|]; simpl;
      try destruct (n <? n')%N; simpl;
      destruct (String.eqb_spec k k0); try done;
      destruct (String.eqb_spec k' k0); try done.
Qed.

Lemma get_replace_value_eq {V} (k : string) (v : V) (o : Js.obj V) :
  is_Some (Js.get k o) -> Js.get k (Js.replace_value k v o) = Some v.
Proof.
  induction o as [|[k' v'] o IH]; simpl.
  - by intros [? ?].
  - destruct (String.eqb_spec k' k) as [->|Hne]; simpl.
    + by rewrite String.eqb_refl.
    + destruct (String.eqb_spec k' k); [done|]. apply IH.
Qed.

Lemma get_replace_value_ne {V} (k k0 : string) (v : V) (o : Js.obj V) :
  k ≠ k0 -> Js.get k0 (Js.replace_value k v o) = Js.get k0 o.
Proof.
  intros Hne. induction o as [|[k' v'] o IH]; simpl; [done|].
  destruct (String.eqb_spec k' k) as [->|Hne']; simpl.
  - by destruct (String.eqb_spec k k0).
  - destruct (String.eqb_spec k' k0); [done|]. apply IH.
Qed.

Lemma get_set_eq {V} (k : string) (v : V) (o : Js.obj V) :
  Js.get k (Js.set k v o) = Some v.
Proof.
  unfold Js.set. destruct (Js.get k o) eqn:Hget.
  - apply get_replace_value_eq. by rewrite Hget.
  - by apply get_add_new_eq.
Qed.

Lemma get_set_ne {V} (k k0 : string) (v : V) (o : Js.obj V) :
  k ≠ k0 -> Js.get k0 (Js.set k v o) = Js.get k0 o.
Proof.
  intros Hne. unfold Js.set. destruct (Js.get k o).
  - by apply get_replace_value_ne.
  - by apply get_add_new_ne.
Qed.



(** **** The identifiers held by a state *)

Definition record_id (r : Record) : option Value := Js.get "id" r.

Definition post_id (p : Post) : option Value := VNum <$> p_id p.

Definition collection_ids (m : gmap string (list Record)) : list (option Value) :=
  map_to_list m ≫= (fun kv => map record_id kv.2).

(** The identifiers of all posts and of all records of all collections,
    with repetitions. *)
Definition identifiers (s : State) : list (option Value) :=
  map post_id (posts s) ++ collection_ids (collections s).

Lemma collection_ids_push (m : gmap string (list Record)) (c : string) (r : Record) :
  collection_ids (<[c := default [] (m !! c) ++ [r]]> m) ≡ₚ record_id r :: collection_ids m.
Proof.
  unfold collection_ids. destruct (m !! c) as [old|] eqn:Hc; simpl.
  - rewrite <- insert_delete_eq.
    rewrite map_to_list_insert by apply lookup_delete_eq.
    rewrite <- (insert_delete_id m c old) at 2 by done.
    rewrite (map_to_list_insert (delete c m) c old) by apply lookup_delete_eq.
    simpl. rewrite map_app. simpl.
    rewrite <- app_assoc. simpl. by rewrite <- Permutation_middle.
  - rewrite map_to_list_insert by done. done.
Qed.

(** A push that goes through appends the record to the rows the state
    has under the name, to none when it has none. *)
Lemma push_record_Some (c : string) (r : Record) (s s1 : State) :
  push_record c r s = Some s1 ->
  s1 = with_collections (<[c := default [] (collections s !! c) ++ [r]]> (collections s)) s.
Proof.
  unfold push_record, collection, Js.lookup.
  destruct (collections s !! c) as [rows|]; simpl; [by intros [= <-]|].
  case_bool_decide; [done|]. by intros [= <-].
Qed.

(** A push throws exactly for the names of [Object.prototype] that the
    state has no collection of its own for. *)
Lemma push_record_None (c : string) (r : Record) (s : State) :
  push_record c r s = None <-> collections s !! c = None /\ c ∈ Js.proto_members.
Proof.
  unfold push_record, collection, Js.lookup.
  destruct (collections s !! c) as [rows|]; simpl; [split; [done|by intros [? _]]|].
  case_bool_decide as Hin; split; try done.
  by intros [_ ?].
Qed.

Lemma push_record_is_Some (c : string) (r : Record) (s : State) :
  c ∉ Js.proto_members -> is_Some (push_record c r s).
Proof.
  intros Hc. destruct (push_record c r s) eqn:Hp; [by eexists|].
  apply push_record_None in Hp as [_ Hin]. done.
Qed.

Lemma identifiers_push (c : string) (r : Record) (s s1 : State) :
  push_record c r s = Some s1 ->
  identifiers s1 ≡ₚ record_id r :: identifiers s.
Proof.
  intros ->%push_record_Some. unfold identifiers. simpl.
  rewrite collection_ids_push. by rewrite <- Permutation_middle.
Qed.

Lemma identifiers_same_data (s s' : State) :
  same_data s s' -> identifiers s' ≡ₚ identifiers s.
Proof.
  intros (_ & _ & Hp & _ & _ & Hc). unfold identifiers. by rewrite Hc, Hp.
Qed.

(** **** Submissions *)

Lemma or_null_cases (a : option string) :
  (Js.truthy a = true /\ Js.or_null a = a) \/ (Js.truthy a = false /\ Js.or_null a = None).
Proof. unfold Js.or_null. destruct (Js.truthy a); auto. Qed.

Lemma or_null_branch {A} (a : option string) (f : string -> A) (g : A) :
  (if Js.truthy (Js.or_null a) then f (default EmptyString (Js.or_null a)) else g) =
  match Js.or_null a with
  | Some r => f r
  | None => g
  end.
Proof.
  unfold Js.or_null. destruct (Js.truthy a) eqn:Ha; [|done].
  rewrite Ha. by destruct a.
Qed.

(** The world right after [save()] in a submission; there is none when
    the push throws. *)
Definition submitted (coll : string) (r : Record) (w : World) : option World :=
  (fun s1 => save (with_state s1 w)) <$> push_record coll r (state w).

Lemma submitted_collection (coll : string) (r : Record) (w w1 : World) :
  submitted coll r w = Some w1 ->
  collections (state w1) !! coll =
  Some (default [] (collections (state w) !! coll) ++ [r]).
Proof.
  unfold submitted. destruct (push_record coll r (state w)) as [s1|] eqn:Hp; [|done].
  intros [= <-]. apply push_record_Some in Hp as ->. simpl. apply lookup_insert_eq.
Qed.



Lemma submitted_is_Some (coll : string) (r : Record) (w : World) :
  coll ∉ Js.proto_members -> is_Some (submitted coll r w).
Proof.
  intros Hc. unfold submitted.
  destruct (push_record_is_Some coll r (state w) Hc) as [s1 ->]. by eexists.
Qed.


(** What [handleAction('submit', cfg)] does once a form element is found. *)
Lemma handleAction_submit (doc : string -> option FormEl) (now : Z)
    (cfg : Cfg) (form : FormEl) (w : World) :
  resolve_form doc cfg = Some form ->
  handleAction doc now "submit" cfg w =
    match submitted (Js.or_str (cfg_collection cfg) "posts") (new_record form now) w with
    | Some w1 =>
        if Js.truthy (cfg_redirect cfg)
        then navigate (default EmptyString (cfg_redirect cfg)) w1
        else router w1
    | None => w
    end.
Proof.
  intros Hform. unfold handleAction, submitted. simpl. rewrite Hform.
  destruct (String.eqb_spec (Js.or_str (cfg_collection cfg) "posts") EmptyString) as [He|_].
  - by apply or_str_nonempty in He.
  - by destruct (push_record _ _ _).
Qed.

Lemma handleAction_submit_data (doc : string -> option FormEl) (now : Z)
    (cfg : Cfg) (form : FormEl) (w w1 : World) :
  resolve_form doc cfg = Some form ->
  submitted (Js.or_str (cfg_collection cfg) "posts") (new_record form now) w = Some w1 ->
  same_data (state w1) (state (handleAction doc now "submit" cfg w)) /\
  bp_state (handleAction doc now "submit" cfg w) = bp_state w1.
Proof.
  intros Hform Hsub. rewrite (handleAction_submit _ _ _ _ _ Hform), Hsub.
  destruct (Js.truthy (cfg_redirect cfg)).
  - split; [apply navigate_same_data|apply navigate_bp_state].
  - split; [apply router_same_data|apply router_bp_state].
Qed.

(** The element a form component's submission is read from. *)
Definition submitted_form (doc : string -> option FormEl) (cfg : Component)
    (held : nat -> string * list string) : FormEl :=
  default (form_element cfg held) (doc "__active_form").

Lemma resolve_form_cfg (doc : string -> option FormEl) (cfg : Component)
    (held : nat -> string * list string) :
  resolve_form doc (form_cfg cfg (form_element cfg held)) =
  Some (submitted_form doc cfg held).
Proof.
  unfold resolve_form, submitted_form. simpl. by destruct (doc "__active_form").
Qed.

Lemma form_onsubmit_eq (doc : string -> option FormEl) (now : Z) (cfg : Component)
    (held : nat -> string * list string) (w : World) :
  form_onsubmit doc now cfg held w =
    match submitted (form_collection cfg)
            (new_record (submitted_form doc cfg held) now) w with
    | Some w1 =>
        match form_redirect cfg with
        | Some r => navigate r w1
        | None => router w1
        end
    | None => w
    end.
Proof.
  unfold form_onsubmit.
  rewrite (handleAction_submit _ _ _ _ _ (resolve_form_cfg doc cfg held)).
  change (cfg_collection (form_cfg cfg (form_element cfg held)))
    with (Some (form_collection cfg)).
  change (cfg_redirect (form_cfg cfg (form_element cfg held)))
    with (form_redirect cfg).
  assert (Js.or_str (Some (form_collection cfg)) "posts" = form_collection cfg) as ->.
  { simpl. destruct (String.eqb_spec (form_collection cfg) EmptyString) as [He|]; [|done].
    unfold form_collection in He. by apply or_str_nonempty in He. }
  destruct (submitted _ _ w) as [w1|]; [|done].
  unfold form_redirect.
  exact (or_null_branch _ (fun r => navigate r _) (router _)).
Qed.

Lemma form_onsubmit_data (doc : string -> option FormEl) (now : Z) (cfg : Component)
    (held : nat -> string * list string) (w w1 : World) :
  submitted (form_collection cfg) (new_record (submitted_form doc cfg held) now) w
    = Some w1 ->
  same_data (state w1) (state (form_onsubmit doc now cfg held w)) /\
  bp_state (form_onsubmit doc now cfg held w) = bp_state w1.
Proof.
  intros Hsub. rewrite form_onsubmit_eq, Hsub. destruct (form_redirect cfg).
  - split; [apply navigate_same_data|apply navigate_bp_state].
  - split; [apply router_same_data|apply router_bp_state].
Qed.


Lemma form_collection_default (cfg : Component) :
  Js.truthy (c_collection cfg) = false ->
  Js.truthy (c_submit cfg ≫= submit_collection) = false ->
  form_collection cfg = "forms".
Proof.
  intros H1 H2. unfold form_collection, Js.or_opt. rewrite H1.
  by apply or_str_falsy.
Qed.

Lemma new_record_id (form : FormEl) (now : Z) :
  record_id (new_record form now) = Some (VNum now).
Proof. apply get_set_eq. Qed.
Definition email_field : Field :=
  {| f_label := Some "Email"; f_name := Some "email"; f_id := None; f_type := None |}.

(** A form with the given fields, target collection and redirect. *)
Definition form_of (fields : list Field) (coll redirect : option string) : Component := {|
  c_type := Some (TString "form"); c_value := None; c_src := None; c_to := None;
  c_label := None; c_action := None; c_formId := None; c_items := None;
  c_collection := coll; c_field := None; c_columns := None; c_rows := None;
  c_fields := Some fields; c_submit := None; c_redirect := redirect |}.

(** The form of the specification's scenario: leads, then the thanks
    page. *)
Definition leads_form : Component := form_of [email_field] (Some "leads") (Some "#/thanks").

(** The same form without a redirect: it stays on the page. *)
Definition signup_form : Component := form_of [email_field] (Some "leads") None.

(** The form of the scenario writing to a collection called
    [constructor]. *)
Definition constructor_form : Component :=
  form_of [email_field] (Some "constructor") (Some "#/thanks").



Definition composer_box : Component := typed (Some (TString "composer")).

(** A site whose landing page holds the leads form, with a thanks page. *)
Definition leads_site : World :=
  load (Some [{| path := Some "#/"; title := Some "Home";
                 components := Some [leads_form] |};
              {| path := Some "#/thanks"; title := Some "Thanks";
                 components := Some [text_of "thank you"] |}])
       no_sample None None EmptyString.

(** A site whose only page holds the signup form and a composer. *)
Definition signup_site : World :=
  load (Some [{| path := Some "#/"; title := Some "Home";
                 components := Some [signup_form; composer_box] |}])
       no_sample None None EmptyString.

(** A page none of whose elements has an id. *)
Definition no_ids : string -> option FormEl := fun _ => None.

(** The ids of the signup page are those of the composer, on elements
    that contain no form control. *)
Definition composer_ids : string -> option FormEl := fun i =>
  if bool_decide (i ∈ ["file"; "cap"; "btn"]) then Some [] else None.

Definition note_control : Control := {|
  el_name := "note"; el_id := EmptyString; el_placeholder := EmptyString;
  el_type := "text"; el_value := "hello"; el_files := [] |}.


(** Every control holds the same text and no file. *)
Definition holding (v : string) : nat -> string * list string := fun _ => (v, []).





(** **** Default collections *)

Definition contact_form : Component :=
  form_of [{| f_label := None; f_name := Some "msg"; f_id := None; f_type := None |}]
    None None.

(** A button with the given action and form id (no collection). *)
Definition button_of (action formId : option string) : Component := {|
  c_type := Some (TString "button"); c_value := None; c_src := None; c_to := None;
  c_label := Some "Send"; c_action := action; c_formId := formId;
  c_items := None; c_collection := None; c_field := None; c_columns := None;
  c_rows := None; c_fields := None; c_submit := None; c_redirect := None |}.

Definition submit_button : Component := button_of (Some "submit") (Some "f1").

(** A page with one element, of id [f1], holding a text input named
    [note]. *)
Definition page_f1 : string -> option FormEl := fun i =>
  if String.eqb i "f1" then Some [note_control] else None.

(** A site whose only page holds a submit button that names no form. *)
Definition button_site : World :=
  load (Some [{| path := Some "#/"; title := Some "Home";
                 components := Some [button_of (Some "submit") None] |}])
       no_sample None None EmptyString.

(** C10, as stated, fails for buttons.  A button whose action is
    [submit] reads the values from an element of the page, the one with
    the id it names or else the one with id [__active_form]; the renderer
    puts no such element on a page, and without one the click writes
    nothing: on the page that holds only the button, and on a page that
    has an element [f1] for a button that names no form, the posts
    collection is as missing after the click as before. *)
Lemma button_without_form_writes_nothing :
  collections (state button_site) !! "posts" = None /\
  button_onclick no_ids 9 (button_of (Some "submit") None) button_site = button_site /\
  button_onclick page_f1 9 (button_of (Some "submit") None) button_site = button_site /\
  collections (state (button_onclick page_f1 9 (button_of (Some "submit") None) button_site))
    !! "posts" = None.
Proof. repeat split; by vm_compute. Qed.

(** C10, amended.  A form component with neither [collection] nor
    [submit.collection] (missing or empty) writes its record at the end
    of the collection [forms].  A button whose action is [submit] and
    which has no [collection] writes the record read from the element it
    refers to at the end of the collection [posts], when the page has
    that element; when the page has no such element the click changes
    nothing. *)
Theorem default_collections (doc : string -> option FormEl) (now : Z) (w : World) :
  (forall cfg held,
     Js.truthy (c_collection cfg) = false ->
     Js.truthy (c_submit cfg ≫= submit_collection) = false ->
     collections (state (form_onsubmit doc now cfg held w)) !! "forms" =
       Some (default [] (collections (state w) !! "forms")
             ++ [new_record (submitted_form doc cfg held) now])) /\
  (forall c form,
     c_action c = Some "submit" ->
     Js.truthy (c_collection c) = false ->
     resolve_form doc (button_cfg c) = Some form ->
     collections (state (button_onclick doc now c w)) !! "posts" =
       Some (default [] (collections (state w) !! "posts") ++ [new_record form now])) /\
  (forall c,
     c_action c = Some "submit" ->
     resolve_form doc (button_cfg c) = None ->
     button_onclick doc now c w = w).
Proof.
  split; [|split].
  - intros cfg held H1 H2.
    pose proof (form_collection_default cfg H1 H2) as Hcoll.
    destruct (submitted_is_Some "forms" (new_record (submitted_form doc cfg held) now) w)
      as [w1 Hsub]; [apply (bool_decide_unpack _); by vm_compute|].
    pose proof (form_onsubmit_data doc now cfg held w w1) as Hdata.
    rewrite Hcoll in Hdata. destruct (Hdata Hsub) as ((_&_&_&_&_&Hco) & _).
    rewrite Hco. by apply (submitted_collection "forms" _ w).
  - intros c form Ha Hc Hform. unfold button_onclick. rewrite Ha. simpl Js.or_str.
    destruct (submitted_is_Some "posts" (new_record form now) w)
      as [w1 Hsub]; [apply (bool_decide_unpack _); by vm_compute|].
    pose proof (handleAction_submit_data doc now (button_cfg c) form w w1 Hform) as Hdata.
    simpl cfg_collection in Hdata. rewrite (or_str_falsy _ _ Hc) in Hdata.
    destruct (Hdata Hsub) as ((_&_&_&_&_&Hco) & _).
    rewrite Hco. by apply (submitted_collection "posts" _ w).
  - intros c Ha Hform. unfold button_onclick. rewrite Ha. simpl Js.or_str.
    unfold handleAction. simpl. by rewrite Hform.
Qed.

Lemma default_collections_witness :
  collections (state (form_onsubmit no_ids 9 contact_form (holding "hi") blank_world))
    !! "forms" = Some [[("msg", VStr "hi"); ("id", VNum 9)]] /\
  collections (state (button_onclick page_f1 9 submit_button blank_world))
    !! "posts" = Some [[("note", VStr "hello"); ("id", VNum 9)]].
Proof.
  destruct (default_collections no_ids 9 blank_world) as (Hform & _).
  destruct (default_collections page_f1 9 blank_world) as (_ & Hbutton & _).
  split.
  - exact (Hform contact_form (holding "hi") eq_refl eq_refl).
  - exact (Hbutton submit_button [note_control] eq_refl eq_refl eq_refl).
Defined.

(** **** Identifiers of created records *)

(** The ways a runtime record comes into being, each with what the page
    and the clock hold at that moment: the submission of a form
    component, a click on a button whose action is [submit], a post from
    the composer. *)
Inductive Creation :=
| FormSubmission (doc : string -> option FormEl) (cfg : Component)
    (held : nat -> string * list string) (now : Z)
| ButtonSubmission (doc : string -> option FormEl) (c : Component) (now : Z)
| ComposerPost (img : string) (cap : string) (now_id now_ts : Z).

Definition create (e : Creation) (w : World) : World :=
  match e with
  | FormSubmission doc cfg held now => form_onsubmit doc now cfg held w
  | ButtonSubmission doc c now => button_onclick doc now c w
  | ComposerPost img cap now_id now_ts => composer_post (Some img) cap now_id now_ts w
  end.

(** The reading of the clock that a created record gets as its [id]. *)
Definition reading (e : Creation) : Z :=
  match e with
  | FormSubmission _ _ _ now => now
  | ButtonSubmission _ _ now => now
  | ComposerPost _ _ now_id _ => now_id
  end.

(** Whether a record comes of it: a submission to a collection for which
    the push throws creates none, nor does a click on a button that has
    another action or finds no element to read. *)
Definition creates (e : Creation) (w : World) : bool :=
  match e with
  | FormSubmission doc cfg held now =>
      bool_decide (is_Some (push_record (form_collection cfg)
                              (new_record (submitted_form doc cfg held) now) (state w)))
  | ButtonSubmission doc c now =>
      String.eqb (Js.or_str (c_action c) "navigate") "submit"
      && match resolve_form doc (button_cfg c) with
         | Some form =>
             bool_decide (is_Some (push_record (Js.or_str (c_collection c) "posts")
                                     (new_record form now) (state w)))
         | None => false
         end
  | ComposerPost _ _ _ _ => true
  end.

(** The identifiers a creation adds: its reading, or nothing. *)
Definition added (e : Creation) (w : World) : list Z :=
  if creates e w then [reading e] else [].

Lemma create_identifiers (e : Creation) (w : World) :
  identifiers (state (create e w)) ≡ₚ
  map (fun i => Some (VNum i)) (added e w) ++ identifiers (state w).
Proof.
  unfold added. destruct e as [doc cfg held now|doc c now|img cap now_id now_ts]; simpl.
  - rewrite form_onsubmit_eq. unfold submitted.
    destruct (push_record _ _ (state w)) as [s1|] eqn:Hp; simpl.
    + assert (same_data s1 (state match form_redirect cfg with
                                  | Some r => navigate r (save (with_state s1 w))
                                  | None => router (save (with_state s1 w))
                                  end)) as Hsame.
      { destruct (form_redirect cfg);
          [apply (navigate_same_data _ (save (with_state s1 w)))
          |apply (router_same_data (save (with_state s1 w)))]. }
      rewrite (identifiers_same_data _ _ Hsame), (identifiers_push _ _ _ _ Hp).
      by rewrite new_record_id.
    + done.
  - unfold button_onclick, handleAction.
    destruct (String.eqb_spec (Js.or_str (c_action c) "navigate") "navigate") as [Hn|Hn].
    { rewrite Hn. simpl. apply identifiers_same_data, navigate_same_data. }
    destruct (String.eqb_spec (Js.or_str (c_action c) "navigate") "submit") as [Hs|Hs];
      [|done].
    simpl. destruct (resolve_form doc (button_cfg c)) as [form|]; [|done].
    simpl cfg_collection.
    destruct (String.eqb_spec (Js.or_str (c_collection c) "posts") EmptyString) as [He|_].
    { by apply or_str_nonempty in He. }
    destruct (push_record _ _ (state w)) as [s1|] eqn:Hp; simpl.
    + assert (same_data s1 (state (if Js.truthy (cfg_redirect (button_cfg c))
                                   then navigate (default EmptyString (cfg_redirect (button_cfg c)))
                                          (save (with_state s1 w))
                                   else router (save (with_state s1 w))))) as Hsame.
      { destruct (Js.truthy _);
          [apply (navigate_same_data _ (save (with_state s1 w)))
          |apply (router_same_data (save (with_state s1 w)))]. }
      rewrite (identifiers_same_data _ _ Hsame), (identifiers_push _ _ _ _ Hp).
      by rewrite new_record_id.
    + done.
  - rewrite (identifiers_same_data _ _ (navigate_same_data _ _)).
    unfold identifiers. simpl. rewrite map_app. simpl.
    rewrite <- app_assoc. simpl. by rewrite <- Permutation_middle.
Qed.

(** The creations of a session, oldest first. *)
Definition session (es : list Creation) (w : World) : World :=
  foldl (fun w e => create e w) w es.

(** The identifiers the creations of a session add, oldest first. *)
Fixpoint session_added (es : list Creation) (w : World) : list Z :=
  match es with
  | [] => []
  | e :: es' => added e w ++ session_added es' (create e w)
  end.

Lemma session_identifiers (es : list Creation) (w : World) :
  identifiers (state (session es w)) ≡ₚ
  map (fun i => Some (VNum i)) (session_added es w) ++ identifiers (state w).
Proof.
  revert w. induction es as [|e es IH]; intros w; simpl; [done|].
  unfold session in *. rewrite IH, create_identifiers, map_app, !app_assoc.
  f_equiv. apply Permutation_app_comm.
Qed.

Lemma session_added_sublist (es : list Creation) (w : World) :
  session_added es w `sublist_of` map reading es.
Proof.
  revert w. induction es as [|e es IH]; intros w; simpl; [done|].
  unfold added. destruct (creates e w); simpl.
  - by apply sublist_skip.
  - by apply sublist_cons.
Qed.

(** A form submission and a composer post at one reading of the clock. *)
Definition same_ms_session : World :=
  session [FormSubmission composer_ids signup_form (holding "a@b.c") 1759000000000;
           ComposerPost "data:image/png;base64,AA" "hi" 1759000000000 1759000000000]
          signup_site.

(** C7, as stated, fails when the clock reads the same at two creations:
    a form submission and a composer post at one reading, on a page with
    no record yet, leave a row and a post that carry the same
    identifier. *)
Lemma same_reading_same_id :
  collections (state same_ms_session) !! "leads" =
    Some [[("email", VStr "a@b.c"); ("id", VNum 1759000000000)]] /\
  posts (state same_ms_session) =
    [{| p_id := Some 1759000000000%Z; p_user := "you";
        p_img := Some "data:image/png;base64,AA"; p_caption := Some "hi";
        p_likes := Some 0%Z; p_liked := false; p_comments := Some [];
        p_ts := Some 1759000000000%Z |}] /\
  identifiers (state same_ms_session) =
    [Some (VNum 1759000000000); Some (VNum 1759000000000)].
Proof. by vm_compute. Qed.

(** C7, amended.  Each form submission, each click on a submit button
    and each composer post adds at most one record, none when the
    submission throws or finds no element to read, and the identifier of
    the record is the reading of the clock at its creation; so the
    identifiers added in a session are readings of its creations, one
    for each record created, in order, and they are pairwise distinct
    whenever the readings are. *)
Theorem created_ids_distinct (es : list Creation) (w : World) :
  NoDup (map reading es) ->
  identifiers (state (session es w)) ≡ₚ
    map (fun i => Some (VNum i)) (session_added es w) ++ identifiers (state w) /\
  session_added es w `sublist_of` map reading es /\
  (Forall (fun e => match e with ComposerPost _ _ _ _ => True | _ => False end) es ->
   session_added es w = map reading es) /\
  NoDup (session_added es w) /\
  NoDup (map (fun i => Some (VNum i)) (session_added es w)).
Proof.
  intros Hnd.
  pose proof (session_added_sublist es w) as Hsub.
  assert (NoDup (session_added es w)) as Hnd' by (by eapply sublist_NoDup).
  split; [apply session_identifiers|]. split; [exact Hsub|]. split; [|split; [exact Hnd'|]].
  - clear. revert w. induction es as [|e es IH]; intros w Hall; simpl; [done|].
    apply Forall_cons in Hall as [He Hall]. destruct e; try done. simpl.
    f_equal. by apply IH.
  - apply NoDup_fmap_2; [|exact Hnd']. by intros i j [= ->].
Qed.

Lemma created_ids_distinct_witness :
  NoDup (map reading
           [FormSubmission composer_ids signup_form (holding "a@b.c") 1759000000000;
            ButtonSubmission page_f1 submit_button 1759000000001;
            FormSubmission no_ids constructor_form (holding "x") 1759000000002;
            ComposerPost "data:image/png;base64,AA" "hi" 1759000000003 1759000000003]) /\
  session_added
    [FormSubmission composer_ids signup_form (holding "a@b.c") 1759000000000;
     ButtonSubmission page_f1 submit_button 1759000000001;
     FormSubmission no_ids constructor_form (holding "x") 1759000000002;
     ComposerPost "data:image/png;base64,AA" "hi" 1759000000003 1759000000003]
    signup_site = [1759000000000; 1759000000001; 1759000000003]%Z /\
  NoDup (session_added
    [FormSubmission composer_ids signup_form (holding "a@b.c") 1759000000000;
     ButtonSubmission page_f1 submit_button 1759000000001;
     FormSubmission no_ids constructor_form (holding "x") 1759000000002;
     ComposerPost "data:image/png;base64,AA" "hi" 1759000000003 1759000000003]
    signup_site).
Proof.
  assert (NoDup (map reading
           [FormSubmission composer_ids signup_form (holding "a@b.c") 1759000000000;
            ButtonSubmission page_f1 submit_button 1759000000001;
            FormSubmission no_ids constructor_form (holding "x") 1759000000002;
            ComposerPost "data:image/png;base64,AA" "hi" 1759000000003 1759000000003])) as H.
  { apply (bool_decide_unpack _). vm_compute. exact I. }
  split; [exact H|]. split; [by vm_compute|].
  destruct (created_ids_distinct _ signup_site H) as (_ & _ & _ & Hnd & _).
  exact Hnd.
Defined.

(** **** escapeHtml *)

(** The characters that open a tag or close an attribute value. *)
Definition markup (a : ascii) : bool :=
  Ascii.eqb a "<" || Ascii.eqb a ">" || Ascii.eqb a quote_char.

Lemma markup_special (a : ascii) : special a = false -> markup a = false.
Proof.
  unfold special, markup.
  destruct (Ascii.eqb a "&"), (Ascii.eqb a "<"), (Ascii.eqb a ">"), (Ascii.eqb a quote_char);
    simpl; congruence.
Qed.

Lemma entity_no_markup (a : ascii) :
  Forall (fun b => markup b = false) (list_ascii_of_string (entity a)).
Proof.
  unfold entity.
  destruct (Ascii.eqb a "&"); [by repeat constructor|].
  destruct (Ascii.eqb a "<"); [by repeat constructor|].
  destruct (Ascii.eqb a ">"); by repeat constructor.
Qed.

Lemma flush_no_markup (run : option (ascii * bool)) :
  Forall (fun b => markup b = false) (list_ascii_of_string (flush run)).
Proof.
  destruct run as [[a [|]]|]; simpl.
  - by repeat constructor.
  - apply entity_no_markup.
  - constructor.
Qed.

Lemma escape_from_no_markup (run : option (ascii * bool)) (s : string) :
  Forall (fun b => markup b = false) (list_ascii_of_string (escape_from run s)).
Proof.
  revert run. induction s as [|a s IH]; intros run; simpl.
  - apply flush_no_markup.
  - destruct (special a) eqn:Ha; [apply IH|].
    rewrite chars_append. apply Forall_app. split; [apply flush_no_markup|].
    simpl. constructor; [by apply markup_special|apply IH].
Qed.

(** Whatever the text, what [escapeHtml] returns holds no [<], no [>] and
    no double quote: it cannot open a tag nor leave an attribute value. *)
Theorem escapeHtml_no_markup (s : string) :
  Forall (fun b => b ≠ "<"%char /\ b ≠ ">"%char /\ b ≠ quote_char)
         (list_ascii_of_string (escapeHtml s)).
Proof.
  eapply Forall_impl; [apply (escape_from_no_markup None s)|].
  intros b Hb. unfold markup in Hb.
  destruct (Ascii.eqb_spec b "<"), (Ascii.eqb_spec b ">"), (Ascii.eqb_spec b quote_char);
    simpl in Hb; try discriminate.
  done.
Qed.

(** [escapeHtml] works piece by piece around an ordinary character. *)
Lemma escape_from_split (run : option (ascii * bool)) (s1 s2 : string) (c : ascii) :
  special c = false ->
  escape_from run (s1 +:+ String c s2) =
  escape_from run s1 +:+ String c (escape_from None s2).
Proof.
  intros Hc. revert run. induction s1 as [|a s1 IH]; intros run.
  - rewrite append_empty_l. simpl. by rewrite Hc.
  - rewrite append_cons. simpl. destruct (special a); [apply IH|].
    rewrite IH, append_assoc. by rewrite append_cons.
Qed.

(** A run of special characters read to its end. *)
Lemma escape_from_run (b : ascii) (long : bool) (run : string) :
  Forall (fun a => special a = true) (list_ascii_of_string run) ->
  escape_from (Some (b, long)) run =
  match run with
  | EmptyString => flush (Some (b, long))
  | _ => "undefined"
  end.
Proof.
  revert long. induction run as [|a run IH]; intros long Hall; [done|].
  simpl in *. apply Forall_cons in Hall as [Ha Hall]. rewrite Ha.
  rewrite IH by done. by destruct run.
Qed.

(** Text without any special character comes back as it is. *)
Lemma escapeHtml_plain (s : string) :
  Forall (fun a => special a = false) (list_ascii_of_string s) -> escapeHtml s = s.
Proof.
  unfold escapeHtml. induction s as [|a s IH]; intros Hall; [done|].
  simpl in *. apply Forall_cons in Hall as [Ha Hall]. rewrite Ha.
  rewrite append_empty_l. by rewrite IH.
Qed.

(** A special character that stands alone between ordinary text becomes
    its entity, and the text on both sides is escaped on its own. *)
Theorem escapeHtml_single_special (s1 s2 : string) (c1 a c2 : ascii) :
  special c1 = false ->
  special a = true ->
  special c2 = false ->
  escapeHtml (s1 +:+ String c1 (String a (String c2 s2))) =
  escapeHtml s1 +:+ String c1 (entity a +:+ String c2 (escapeHtml s2)).
Proof.
  intros H1 Ha H2. unfold escapeHtml.
  rewrite escape_from_split by done. f_equal. f_equal.
  simpl. by rewrite Ha, H2.
Qed.

Lemma escapeHtml_single_special_witness :
  special "a" = false /\ special "<" = true /\ special "b" = false /\
  escapeHtml ("1" +:+ String "a" (String "<" (String "b" "2"))) = "1a&lt;b2".
Proof.
  assert (special "a" = false) as H1 by reflexivity.
  assert (special "<" = true) as H2 by reflexivity.
  assert (special "b" = false) as H3 by reflexivity.
  split; [exact H1|]. split; [exact H2|]. split; [exact H3|].
  exact (escapeHtml_single_special "1" "2" "a" "<" "b" H1 H2 H3).
Defined.

(** Two or more special characters in a row are replaced as one piece,
    by the text of [undefined]: the replacement table has entries for
    single characters only, so what the run said is lost. *)
Theorem escapeHtml_run_lost (s1 s2 run : string) (c1 a1 a2 c2 : ascii) :
  special c1 = false ->
  special a1 = true ->
  special a2 = true ->
  Forall (fun a => special a = true) (list_ascii_of_string run) ->
  special c2 = false ->
  escapeHtml (s1 +:+ String c1 (String a1 (String a2 run) +:+ String c2 s2)) =
  escapeHtml s1 +:+ String c1 ("undefined" +:+ String c2 (escapeHtml s2)).
Proof.
  intros H1 Ha1 Ha2 Hrun H2. unfold escapeHtml.
  rewrite escape_from_split by done. f_equal. f_equal.
  rewrite escape_from_split by done. f_equal.
  simpl. rewrite Ha1, Ha2.
  rewrite escape_from_run by done. by destruct run.
Qed.

Lemma escapeHtml_run_lost_witness :
  special "x" = false /\ special "<" = true /\ special "&" = true /\
  Forall (fun a => special a = true) (list_ascii_of_string ">") /\
  special "y" = false /\
  escapeHtml ("x" +:+ String "x" (String "<" (String "&" ">") +:+ String "y" "z")) =
  "xxundefinedyz".
Proof.
  assert (special "x" = false) as H1 by reflexivity.
  assert (special "<" = true) as H2 by reflexivity.
  assert (special "&" = true) as H3 by reflexivity.
  assert (Forall (fun a => special a = true) (list_ascii_of_string ">")) as H4
    by (by repeat constructor).
  assert (special "y" = false) as H5 by reflexivity.
  split; [exact H1|]. split; [exact H2|]. split; [exact H3|]. split; [exact H4|].
  split; [exact H5|].
  exact (escapeHtml_run_lost "x" "z" ">" "x" "<" "&" "y" H1 H2 H3 H4 H5).
Defined.

(** **** The route table *)


Lemma keys_replace_value {V} (k : string) (v : V) (o : Js.obj V) :
  Js.keys (Js.replace_value k v o) = Js.keys o.
Proof.
  unfold Js.keys. induction o as [|[k' v'] o IH]; csimpl; [done|].
  destruct (String.eqb k' k); csimpl; [done|]. by rewrite IH.
Qed.



(** The key a route is filed under. *)
Definition route_key (r : Route) : string := Js.or_str (path r) "#/".

Lemma routeMap_get_from (k : string) (rs : list Route) (m : Js.obj Route) :
  Js.get k (foldl (fun map r => Js.set (Js.or_str (path r) "#/") r map) m rs) =
  match last (filter (fun r => route_key r = k) rs) with
  | Some r => Some r
  | None => Js.get k m
  end.
Proof.
  revert m. induction rs as [|r rs IH]; intros m; simpl; [done|].
  rewrite IH, filter_cons. fold (route_key r).
  destruct (decide (route_key r = k)) as [Hk|Hk].
  - rewrite last_cons. destruct (last (filter _ rs)); [done|].
    rewrite <- Hk. apply get_set_eq.
  - destruct (last (filter _ rs)); [done|]. by apply get_set_ne.
Qed.

(** What a key of the route table gives. *)
Lemma routeMap_get (rs : list Route) (k : string) :
  Js.get k (routeMap (Some rs)) = last (filter (fun r => route_key r = k) rs).
Proof.
  unfold routeMap. simpl. rewrite routeMap_get_from. by destruct (last _).
Qed.


Lemma full_hash (k : string) :
  Js.starts_with "#" k = true -> "#" +:+ Js.remove_first "#" k = k.
Proof.
  destruct k as [|a k]; [done|]. simpl.
  destruct (Ascii.eqb_spec a "#") as [->|]; [done|done].
Qed.

(** [router] only ever looks under keys that start with [#]: a route
    whose path lacks it is shown for no address at all. *)
Theorem router_needs_hash_paths (w : World) :
  current_route w = not_found \/
  exists k, Js.starts_with "#" k = true /\ Js.get k (routes w) = Some (current_route w).
Proof.
  unfold current_route.
  set (full := "#" +:+ _).
  destruct (Js.get full (routes w)) as [r|] eqn:Hfull.
  - right. exists full. split; [done|done].
  - destruct (Js.get "#/" (routes w)) as [r|] eqn:Hroot.
    + right. exists "#/". split; [done|done].
    + by left.
Qed.

(** With no hash in the address the page opens on the route under the
    first key of the table, provided that key starts with [#]. *)
Lemma landing_first_key (w : World) (k : string) (r : Route) (rest : Js.obj Route) :
  hash w = EmptyString ->
  routes w = (k, r) :: rest ->
  Js.starts_with "#" k = true ->
  current_route w = r.
Proof.
  intros Hh Hr Hk. unfold current_route. rewrite Hh, Hr.
  change (head (Js.keys ((k, r) :: rest))) with (Some k).
  assert (Js.or_dom EmptyString (Js.or_str (Some k) "#/") = k) as ->.
  { unfold Js.or_dom, Js.or_str. simpl. destruct k; [done|done]. }
  rewrite full_hash by done. simpl. by rewrite String.eqb_refl.
Qed.

Lemma array_index_hash (k : string) :
  Js.starts_with "#" k = true -> Js.array_index k = None.
Proof.
  destruct k as [|a k]; [done|]. simpl.
  destruct (Ascii.eqb_spec a "#") as [->|]; [|done]. intros _. reflexivity.
Qed.

Lemma head_keys_set {V} (k : string) (v : V) (o : Js.obj V) :
  o ≠ [] -> Js.array_index k = None -> head (Js.keys (Js.set k v o)) = head (Js.keys o).
Proof.
  intros Hne Hk. unfold Js.set. destruct (Js.get k o).
  - by rewrite keys_replace_value.
  - destruct o as [|[k' v'] o]; [done|]. simpl. by rewrite Hk.
Qed.

Lemma set_not_nil {V} (k : string) (v : V) (o : Js.obj V) : Js.set k v o ≠ [].
Proof.
  intros H. assert (Js.get k (Js.set k v o) = Some v) as Hg by apply get_set_eq.
  by rewrite H in Hg.
Qed.

Lemma head_keys_routes (rs : list Route) (m : Js.obj Route) :
  m ≠ [] ->
  Forall (fun r => Js.starts_with "#" (route_key r) = true) rs ->
  head (Js.keys (foldl (fun map r => Js.set (Js.or_str (path r) "#/") r map) m rs))
  = head (Js.keys m).
Proof.
  revert m. induction rs as [|r rs IH]; intros m Hm Hall; simpl; [done|].
  apply Forall_cons in Hall as [Hr Hall].
  rewrite IH by (done || apply set_not_nil).
  apply head_keys_set; [done|]. by apply array_index_hash.
Qed.

(** When the paths of a blueprint all start with [#], a page opened with
    no hash in the address shows the route filed under the path of the
    first route: the first route itself unless a later one repeats its
    path. *)
Theorem landing_is_first_route (w : World) (r0 : Route) (rest : list Route) :
  hash w = EmptyString ->
  routes w = routeMap (Some (r0 :: rest)) ->
  Forall (fun r => Js.starts_with "#" (route_key r) = true) (r0 :: rest) ->
  Some (current_route w) = last (filter (fun r => route_key r = route_key r0) (r0 :: rest)).
Proof.
  intros Hh Hr Hall.
  pose proof (routeMap_get (r0 :: rest) (route_key r0)) as Hget.
  rewrite <- Hget, <- Hr.
  assert (head (Js.keys (routes w)) = Some (route_key r0)) as Hhead.
  { rewrite Hr. unfold routeMap. simpl. apply Forall_cons in Hall as [_ Hall].
    rewrite head_keys_routes by (done || apply set_not_nil).
    reflexivity. }
  destruct (routes w) as [|[k r] o] eqn:Hw; [done|].
  simpl in Hhead. injection Hhead as ->.
  apply Forall_cons in Hall as [H0 _].
  rewrite <- Hw, (landing_first_key w (route_key r0) r o Hh Hw H0).
  rewrite Hw. simpl. by rewrite String.eqb_refl.
Qed.

Lemma landing_is_first_route_witness :
  hash two_routes = EmptyString /\
  routes two_routes = routeMap (Some [home_route; root_route]) /\
  Forall (fun r => Js.starts_with "#" (route_key r) = true) [home_route; root_route] /\
  current_route two_routes = home_route.
Proof.
  assert (hash two_routes = EmptyString) as H1 by reflexivity.
  assert (routes two_routes = routeMap (Some [home_route; root_route])) as H2 by reflexivity.
  assert (Forall (fun r => Js.starts_with "#" (route_key r) = true)
                 [home_route; root_route]) as H3 by (by repeat constructor).
  split; [exact H1|]. split; [exact H2|]. split; [exact H3|].
  pose proof (landing_is_first_route two_routes home_route [root_route] H1 H2 H3) as H.
  change (last (filter (fun r => route_key r = route_key home_route)
                       [home_route; root_route])) with (Some home_route) in H.
  congruence.
Defined.

(** A blueprint without routes shows the not-found text at every
    address, and rendering it leaves the state alone. *)
Theorem no_routes_not_found (w : World) :
  routes w = [] ->
  app (router w) =
    [El "div" [("class", "container")] None [El "div" card None [Html "ไม่พบหน้า"]]] /\
  state (router w) = state w.
Proof.
  intros Hr. unfold router, current_route. rewrite Hr. simpl Js.get.
  unfold renderRoute. simpl. by destruct w.
Qed.

Lemma no_routes_not_found_witness :
  routes blank_world = [] /\
  app (router (with_hash "#/anything" blank_world)) =
    [El "div" [("class", "container")] None [El "div" card None [Html "ไม่พบหน้า"]]].
Proof.
  assert (routes (with_hash "#/anything" blank_world) = []) as H by reflexivity.
  split; [exact H|].
  destruct (no_routes_not_found (with_hash "#/anything" blank_world) H) as [Happ _].
  exact Happ.
Defined.

(** Showing a route writes nothing to storage, leaves the address, the
    stored todos and the route table as they are, and changes nothing of
    the state but the order of the posts; a route without a feed leaves
    the state exactly as it was. *)
Theorem rendering_keeps_data (r : Route) (w : World) :
  bp_state (renderRoute r w) = bp_state w /\
  todos (renderRoute r w) = todos w /\
  hash (renderRoute r w) = hash w /\
  routes (renderRoute r w) = routes w /\
  same_data (state w) (state (renderRoute r w)) /\
  (Forall (fun c => kind c ≠ Some "feed") (default [] (components r)) ->
   state (renderRoute r w) = state w).
Proof.
  split; [apply renderRoute_bp_state|].
  pose proof (renderRoute_same_data r w) as Hsame.
  unfold renderRoute in *.
  destruct (render_all (todos w) (state w) (default [] (components r))) as [ns s1] eqn:Hra.
  simpl in *. repeat split; try done; try apply Hsame.
  intros Hnofeed.
  assert (forall cs s, Forall (fun c => kind c ≠ Some "feed") cs ->
            (render_all (todos w) s cs).2 = s) as Hkeep.
  { clear. induction cs as [|c cs IH]; intros s Hall; simpl; [done|].
    apply Forall_cons in Hall as [Hc Hall].
    pose proof (renderComponent_state (todos w) s c Hc) as Hs.
    destruct (renderComponent (todos w) s c) as [[n|] s1]; simpl in Hs; subst s1; [|done].
    specialize (IH s Hall). by destruct (render_all (todos w) s cs). }
  specialize (Hkeep _ (state w) Hnofeed). by rewrite Hra in Hkeep.
Qed.

(** **** The feed *)















(** **** What storage keeps *)

















(** **** Rendered forms, buttons and the composer *)









Lemma hash_navigate (p : string) (w : World) : hash (navigate p w) = hash_of p.
Proof.
  unfold navigate. destruct (String.eqb_spec (hash_of p) (hash w)) as [He|_]; [done|].
  unfold router, renderRoute. by destruct (render_all _ _ _).
Qed.

(** A click on a button writes data only if its action is exactly
    [submit]: with any other action, or none, storage is left as it is
    and the state keeps its data; the click navigates when the action is
    [navigate] or missing, and does nothing at all otherwise. *)
Theorem button_writes_only_on_submit (doc : string -> option FormEl) (now : Z)
    (c : Component) (w : World) :
  c_action c ≠ Some "submit" ->
  bp_state (button_onclick doc now c w) = bp_state w /\
  same_data (state w) (state (button_onclick doc now c w)) /\
  (Js.or_str (c_action c) "navigate" = "navigate" ->
   button_onclick doc now c w = navigate (Js.or_str (c_to c) "#/") w) /\
  (Js.or_str (c_action c) "navigate" ≠ "navigate" -> button_onclick doc now c w = w).
Proof.
  intros Hns. unfold button_onclick, handleAction.
  destruct (String.eqb_spec (Js.or_str (c_action c) "navigate") "navigate") as [Hn|Hn].
  - simpl cfg_to. split; [apply navigate_bp_state|]. split; [apply navigate_same_data|].
    split; done.
  - destruct (String.eqb_spec (Js.or_str (c_action c) "navigate") "submit") as [Hs|Hs].
    + exfalso. apply Hns. unfold Js.or_str in Hs. destruct (c_action c) as [a|]; [|done].
      destruct (String.eqb_spec a EmptyString); [done|]. by rewrite Hs.
    + split; [done|]. split; [apply same_data_refl|]. split; done.
Qed.

Definition go_button : Component := {|
  c_type := Some (TString "button"); c_value := None; c_src := None; c_to := Some "#/thanks";
  c_label := Some "Go"; c_action := None; c_formId := None; c_items := None;
  c_collection := None; c_field := None; c_columns := None; c_rows := None;
  c_fields := None; c_submit := None; c_redirect := None |}.

Lemma button_writes_only_on_submit_witness :
  c_action go_button ≠ Some "submit" /\
  button_onclick no_ids 1759000000000 go_button leads_site = navigate "#/thanks" leads_site /\
  bp_state (button_onclick no_ids 1759000000000 go_button leads_site) = bp_state leads_site.
Proof.
  assert (c_action go_button ≠ Some "submit") as H by discriminate.
  split; [exact H|].
  destruct (button_writes_only_on_submit no_ids 1759000000000 go_button leads_site H)
    as (Hbp & _ & Hnav & _).
  split; [exact (Hnav eq_refl)|exact Hbp].
Defined.

(** The post the composer builds. *)
Definition composed (s : State) (img cap : string) (now_id now_ts : Z) : Post := {|
  p_id := Some now_id; p_user := username (currentUser s);
  p_img := Some img; p_caption := Some cap;
  p_likes := Some 0%Z; p_liked := false;
  p_comments := Some []; p_ts := Some now_ts |}.

(** Posting from the composer: with a picked file, one post by the
    current user, with no like and no comment, joins the posts and is
    written to storage at their end; collections are untouched and the
    address becomes the feed.  When the address already is the feed, the
    page is not rendered again, so what it shows stays as it was. *)
Theorem composer_adds_one_post (img cap : string) (now_id now_ts : Z) (w : World) :
  posts (state (composer_post (Some img) cap now_id now_ts w)) ≡ₚ
    posts (state w) ++ [composed (state w) img cap now_id now_ts] /\
  collections (state (composer_post (Some img) cap now_id now_ts w)) =
    collections (state w) /\
  (ps_posts <$> bp_state (composer_post (Some img) cap now_id now_ts w)) =
    Some (Some (posts (state w) ++ [composed (state w) img cap now_id now_ts])) /\
  hash (composer_post (Some img) cap now_id now_ts w) = "#/feed" /\
  (hash w = "#/feed" ->
   app (composer_post (Some img) cap now_id now_ts w) = app w /\
   posts (state (composer_post (Some img) cap now_id now_ts w)) =
     posts (state w) ++ [composed (state w) img cap now_id now_ts]).
Proof.
  unfold composer_post. fold (composed (state w) img cap now_id now_ts).
  set (w1 := save _).
  destruct (navigate_same_data "#/feed" w1) as (_ & _ & Hp & _ & _ & Hc).
  split; [exact Hp|]. split; [exact Hc|].
  split; [by rewrite navigate_bp_state|]. split; [by rewrite hash_navigate|].
  intros Hh. unfold navigate. simpl hash. rewrite Hh. by simpl.
Qed.

(** **** Likes and comments *)


(** [p.comments = p.comments || []] followed by the [push]. *)
Definition add_comment (user text : string) (p : Post) : Post :=
  {| p_id := p_id p; p_user := p_user p; p_img := p_img p; p_caption := p_caption p;
     p_likes := p_likes p; p_liked := p_liked p;
     p_comments := Some (default [] (p_comments p)
                         ++ [{| cm_user := user; cm_text := text |}]);
     p_ts := p_ts p |}.


(** The handler of the comment button; [answer] is what [prompt]
    returned, [None] when it was dismissed. *)
Definition on_comment (i : nat) (answer : option string) (w : World) : World :=
  if Js.truthy answer
  then
    let s := state w in
    let c := add_comment (username (currentUser s)) (default EmptyString answer) in
    router (save (with_state (with_posts (alter c i (posts s)) s) w))
  else w.



Definition liked_post : Post := {|
  p_id := Some 1%Z; p_user := "ann"; p_img := None; p_caption := None;
  p_likes := None; p_liked := true; p_comments := None; p_ts := Some 1%Z |}.

Definition liked_world : World := {|
  state := with_posts [liked_post] empty_state; bp_state := None; todos := None;
  hash := EmptyString; routes := []; app := [] |}.


(** A comment is added only when the prompt gave a text: a dismissed or
    empty prompt leaves the page, the state and storage exactly as they
    were; otherwise the post gets one comment more, the last, by the
    current user, which its rendering counts, and the posts are stored
    with it. *)
Theorem comment_needs_text (i : nat) (p : Post) (answer : option string) (w : World) :
  posts (state w) !! i = Some p ->
  (Js.truthy answer = false -> on_comment i answer w = w) /\
  (forall text, answer = Some text -> text ≠ EmptyString ->
     let p' := add_comment (username (currentUser (state w))) text p in
     length (default [] (p_comments p')) = S (length (default [] (p_comments p))) /\
     last (default [] (p_comments p')) =
       Some {| cm_user := username (currentUser (state w)); cm_text := text |} /\
     (ps_posts <$> bp_state (on_comment i answer w)) =
       Some (Some (<[i := p']> (posts (state w)))) /\
     posts (state (on_comment i answer w)) ≡ₚ <[i := p']> (posts (state w))).
Proof.
  intros Hp. split.
  - intros Hf. unfold on_comment. by rewrite Hf.
  - intros text -> Hne p'. unfold on_comment.
    assert (Js.truthy (Some text) = true) as ->.
    { unfold Js.truthy. by destruct (String.eqb_spec text EmptyString). }
    simpl default. fold p'. set (w1 := save _).
    assert (alter (add_comment (username (currentUser (state w))) text) i (posts (state w))
            = <[i := p']> (posts (state w))) as Halter.
    { apply list_eq. intros j. destruct (decide (i = j)) as [<-|Hj].
      - rewrite list_lookup_alter_eq, Hp. simpl.
        rewrite list_lookup_insert_eq; [done|]. by apply lookup_lt_Some in Hp.
      - by rewrite list_lookup_alter_ne, list_lookup_insert_ne. }
    destruct (router_same_data w1) as (_ & _ & Hposts & _).
    split; [unfold p'; simpl; rewrite length_app; simpl; lia|].
    split; [unfold p'; simpl; apply last_snoc|].
    split; [rewrite router_bp_state; simpl; by rewrite Halter|].
    rewrite Hposts. simpl. by rewrite Halter.
Qed.

Lemma comment_needs_text_witness :
  posts (state liked_world) !! 0 = Some liked_post /\
  on_comment 0 (Some EmptyString) liked_world = liked_world /\
  on_comment 0 None liked_world = liked_world.
Proof.
  assert (posts (state liked_world) !! 0 = Some liked_post) as H by reflexivity.
  split; [exact H|].
  split.
  - destruct (comment_needs_text 0 liked_post (Some EmptyString) liked_world H) as (Hno & _).
    exact (Hno eq_refl).
  - destruct (comment_needs_text 0 liked_post None liked_world H) as (Hno & _).
    exact (Hno eq_refl).
Defined.

(** **** What the kinds read *)

(** The kinds whose branch of [renderComponent] does not mention the
    component. *)
Definition state_only_kinds : list string :=
  ["grid"; "composer"; "inbox"; "notifications"; "profile"; "feed"; "todo"].

(** A grid, a composer, an inbox, the notifications, a profile, a feed
    and a todo list are rendered from the state and storage alone: two
    components of one of these kinds give the same node and the same
    state, whatever collection, items or other properties they carry. *)
Theorem state_only_rendering (td : option (list string)) (s : State) (c1 c2 : Component)
    (k : string) :
  kind c1 = Some k ->
  k ∈ state_only_kinds ->
  kind c2 = kind c1 ->
  renderComponent td s c1 = renderComponent td s c2.
Proof.
  intros Hk Hin H2. unfold renderComponent. rewrite H2, Hk.
  unfold state_only_kinds in Hin.
  repeat (apply elem_of_cons in Hin as [->|Hin]; [reflexivity|]).
  by apply elem_of_nil in Hin.
Qed.

Lemma state_only_rendering_witness :
  kind (grid_of "photos") = Some "grid" /\
  ("grid" ∈ state_only_kinds) /\
  kind (grid_of "videos") = kind (grid_of "photos") /\
  renderComponent None empty_state (grid_of "photos") =
  renderComponent None empty_state (grid_of "videos").
Proof.
  assert (kind (grid_of "photos") = Some "grid") as H0 by reflexivity.
  assert ("grid" ∈ state_only_kinds) as H1.
  { apply (bool_decide_unpack _). vm_compute. exact I. }
  assert (kind (grid_of "videos") = kind (grid_of "photos")) as H2 by reflexivity.
  split; [exact H0|]. split; [exact H1|]. split; [exact H2|].
  exact (state_only_rendering None empty_state (grid_of "photos") (grid_of "videos")
           "grid" H0 H1 H2).
Defined.

(** A row that lacks the field asked for shows differently in a list and
    in a table: the list item is the JSON text of the whole row, the
    table cell is empty; a row that has the field shows its value in
    both.  This is so for a field that [Object.prototype] has no member
    for; for a name such as [constructor] a row that lacks the field
    shows, in both, the member it inherits. *)
Theorem missing_field_shown (s : State) (c : Component) (nm : string)
    (rows : list Record) (i : nat) (x : Record) (col : Column) :
  c_collection c = Some nm ->
  nm ≠ EmptyString ->
  collections s !! nm = Some rows ->
  rows !! i = Some x ->
  c_items c = None ->
  let field := Js.or_str (c_field c) "name" in
  let column := default "undefined" (col_field col) in
  (exists items, bindItems s c = Some items /\ length items = length rows /\
     (Js.get field x = None -> field ∉ Js.proto_members ->
      items !! i = Some (VStr (JSON_stringify x))) /\
     (Js.get field x = None -> field ∈ Js.proto_members ->
      items !! i = Some (VProto field)) /\
     (forall v, Js.get field x = Some v -> v ≠ VUndef -> v ≠ VNull ->
      items !! i = Some v)) /\
  (Js.get column x = None -> column ∉ Js.proto_members ->
   table_cell x col = El "td" [] None [Html EmptyString]) /\
  (Js.get column x = None -> column ∈ Js.proto_members ->
   table_cell x col = El "td" [] None [Html (escapeHtml (to_String (VProto column)))]) /\
  (forall v, Js.get column x = Some v -> v ≠ VUndef -> v ≠ VNull ->
     table_cell x col = El "td" [] None [Html (escapeHtml (to_String v))]).
Proof.
  intros Hc Hne Hrows Hx Hitems field column.
  split; [|split; [|split]].
  - exists (map (item_of field) rows).
    split.
    { unfold bindItems, collection, Js.lookup. rewrite Hitems, Hc. unfold Js.truthy.
      destruct (String.eqb_spec nm EmptyString); [done|]. simpl. by rewrite Hrows. }
    split; [apply length_map|].
    change (map (item_of field) rows) with (item_of field <$> rows).
    rewrite list_lookup_fmap, Hx. simpl. unfold item_of, Js.prop, Js.lookup.
    split; [|split].
    + intros -> Hout. by rewrite bool_decide_false.
    + intros -> Hin. by rewrite bool_decide_true.
    + intros v -> Hu Hn. by destruct v.
  - intros Hg Hout. unfold table_cell, Js.prop, Js.lookup. fold column.
    by rewrite Hg, bool_decide_false.
  - intros Hg Hin. unfold table_cell, Js.prop, Js.lookup. fold column.
    by rewrite Hg, bool_decide_true.
  - intros v Hg Hu Hn. unfold table_cell, Js.prop, Js.lookup. fold column.
    rewrite Hg. by destruct v.
Qed.

Definition names_list : Component := list_of "leads".

Lemma missing_field_shown_witness :
  collections (state same_ms_session) !! "leads" =
    Some [[("email", VStr "a@b.c"); ("id", VNum 1759000000000)]] /\
  bindItems (state same_ms_session) names_list =
    Some [VStr (JSON_stringify [("email", VStr "a@b.c"); ("id", VNum 1759000000000)])] /\
  table_cell [("email", VStr "a@b.c"); ("id", VNum 1759000000000)]
             {| col_header := Some "Name"; col_field := Some "name" |} =
    El "td" [] None [Html EmptyString].
Proof.
  assert (c_collection names_list = Some "leads") as H1 by reflexivity.
  assert ("leads" ≠ EmptyString) as H2 by discriminate.
  assert (collections (state same_ms_session) !! "leads" =
          Some [[("email", VStr "a@b.c"); ("id", VNum 1759000000000)]]) as H3
    by reflexivity.
  assert ([[("email", VStr "a@b.c"); ("id", VNum 1759000000000)]] !! 0 =
          Some [("email", VStr "a@b.c"); ("id", VNum 1759000000000)]) as H4 by reflexivity.
  assert (c_items names_list = None) as H5 by reflexivity.
  split; [exact H3|]. split; [reflexivity|].
  destruct (missing_field_shown (state same_ms_session) names_list "leads" _ 0 _
              {| col_header := Some "Name"; col_field := Some "name" |} H1 H2 H3 H4 H5)
    as (_ & Hcell & _).
  apply Hcell; [reflexivity|].
  apply (bool_decide_unpack _). vm_compute. exact I.
Defined.

(** **** The todo list *)

(** The white space and line terminators [trim] removes, as the bytes of
    their UTF-8 encoding: tab, line feed, vertical tab, form feed,
    carriage return, space, no-break space, the space separators from
    U+1680 to U+3000, the line and paragraph separators and the byte
    order mark. *)
Definition space_codes : list (list nat) :=
  [[9]; [10]; [11]; [12]; [13]; [32]; [194; 160]; [225; 154; 128];
   [226; 128; 128]; [226; 128; 129]; [226; 128; 130]; [226; 128; 131];
   [226; 128; 132]; [226; 128; 133]; [226; 128; 134]; [226; 128; 135];
   [226; 128; 136]; [226; 128; 137]; [226; 128; 138];
   [226; 128; 168]; [226; 128; 169]; [226; 128; 175]; [226; 129; 159];
   [227; 128; 128]; [239; 187; 191]].

Fixpoint strip_prefix (pre l : list nat) : option (list nat) :=
  match pre, l with
  | [], _ => Some l
  | a :: pre', b :: l' => if (a =? b)%nat then strip_prefix pre' l' else None
  | _ :: _, [] => None
  end.

(** [l] without the first of [spaces] it starts with, if any. *)
Fixpoint strip_space (spaces : list (list nat)) (l : list nat) : option (list nat) :=
  match spaces with
  | [] => None
  | sp :: spaces' =>
      match strip_prefix sp l with
      | Some l' => Some l'
      | None => strip_space spaces' l
      end
  end.

Fixpoint trim_left (spaces : list (list nat)) (fuel : nat) (l : list nat) : list nat :=
  match fuel with
  | O => l
  | S n => match strip_space spaces l with
           | Some l' => trim_left spaces n l'
           | None => l
           end
  end.

(** [s.trim()]. *)
Definition trim (s : string) : string :=
  let l := map nat_of_ascii (list_ascii_of_string s) in
  let l1 := trim_left space_codes (length l) l in
  let l2 := rev (trim_left (map (@rev nat) space_codes) (length l1) (rev l1)) in
  string_of_list_ascii (map ascii_of_nat l2).

Definition with_todos (t : option (list string)) (w : World) : World :=
  {| state := state w; bp_state := bp_state w; todos := t;
     hash := hash w; routes := routes w; app := app w |}.

(** [saveTodos]: the list goes to storage and is painted. *)
Definition saveTodos (items : list string) (w : World) : list string * World :=
  (items, with_todos (Some items) w).

(** The add button of a todo component whose list is [items], with
    [typed] in its input. *)
Definition todo_add (typed : string) (items : list string) (w : World)
    : list string * World :=
  let v := trim typed in
  if String.eqb v EmptyString then (items, w) else saveTodos (items ++ [v]) w.

(** A click on the item at place [i]: [todos.splice(i, 1)]. *)
Definition todo_remove (i : nat) (items : list string) (w : World)
    : list string * World :=
  saveTodos (delete i items) w.

Example trim_examples :
  trim "  buy milk " = "buy milk" /\ trim "   " = EmptyString /\
  trim (String (ascii_of_nat 9) "a b") = "a b".
Proof. by vm_compute. Qed.

Lemma delete_last {A} (l : list A) (x : A) : delete (length l) (l ++ [x]) = l.
Proof. induction l as [|y l IH]; [done|]. simpl. by rewrite IH. Qed.

(** Adding a task whose text is blank changes nothing.  Any other text is
    added, trimmed, at the end of the component's list, and storage then
    holds that list, whatever it held before; the page rendered from it
    lists one more item; removing the item again gives the list back.
    The runtime state and its storage entry are never touched. *)
Theorem todo_add_remove (typed : string) (items : list string) (w : World) :
  (trim typed = EmptyString -> todo_add typed items w = (items, w)) /\
  (trim typed ≠ EmptyString ->
   (todo_add typed items w).1 = items ++ [trim typed] /\
   todos (todo_add typed items w).2 = Some (items ++ [trim typed]) /\
   renderTodo (todos (todo_add typed items w).2) =
     El "div" card None
       [El "h3" [] None [Html "Todo"];
        El "input" [("id", "t"); ("placeholder", "เพิ่มงาน")] None [];
        El "button" [("id", "b")] (Some OnTodoAdd) [Html "เพิ่ม"];
        El "ul" [("id", "list")] None
          (imap (fun i t => El "li" [] (Some (OnTodoRemove i)) [Html t]) items
           ++ [El "li" [] (Some (OnTodoRemove (length items))) [Html (trim typed)]])] /\
   (todo_remove (length items) (todo_add typed items w).1 (todo_add typed items w).2).1 = items /\
   todos (todo_remove (length items) (todo_add typed items w).1 (todo_add typed items w).2).2
     = Some items) /\
  state (todo_add typed items w).2 = state w /\
  bp_state (todo_add typed items w).2 = bp_state w.
Proof.
  unfold todo_add, todo_remove, saveTodos.
  destruct (String.eqb_spec (trim typed) EmptyString) as [He|Hne].
  - split; [done|]. split; [done|]. done.
  - split; [done|]. split; [|done]. intros _. simpl.
    rewrite delete_last. repeat split; try done.
    unfold renderTodo. simpl. rewrite imap_app. simpl. by rewrite Nat.add_0_r.
Qed.

Lemma todo_add_remove_witness :
  trim "  buy milk " ≠ EmptyString /\
  todo_add "  buy milk " ["call ann"] blank_world =
    (["call ann"; "buy milk"], with_todos (Some ["call ann"; "buy milk"]) blank_world) /\
  todos (todo_remove 1 (todo_add "  buy milk " ["call ann"] blank_world).1
                       (todo_add "  buy milk " ["call ann"] blank_world).2).2
    = Some ["call ann"].
Proof.
  assert (trim "  buy milk " ≠ EmptyString) as H by (vm_compute; discriminate).
  split; [exact H|]. split; [reflexivity|].
  destruct (todo_add_remove "  buy milk " ["call ann"] blank_world) as (_ & Hadd & _).
  destruct (Hadd H) as (_ & _ & _ & _ & Hrm).
  exact Hrm.
Defined.

(** **** Links and the profile *)

Lemma tag_ends_in_double (v rest : string) :
  Forall (fun a => a ≠ quote_char) (list_ascii_of_string v) ->
  Js.tag_ends Js.InDouble (v +:+ rest) = Js.tag_ends Js.InDouble rest.
Proof.
  induction v as [|a v IH]; intros Hv; [done|].
  simpl in Hv. apply Forall_cons in Hv as [Ha Hv]. rewrite append_cons. simpl.
  change (ascii_of_nat 34) with quote_char.
  destruct (Ascii.eqb_spec a quote_char); [done|]. by apply IH.
Qed.

(** A link whose target holds no double quote gives an element. *)
Lemma link_parses_plain (c : Component) :
  Forall (fun a => a ≠ quote_char) (list_ascii_of_string (Js.or_str (c_to c) "#/")) ->
  link_parses c = true.
Proof.
  intros Hv. unfold link_parses, link_tail. by rewrite tag_ends_in_double.
Qed.

(** A link is rendered whenever its target holds no double quote.  A
    click on it stays in the page when the [href] attribute, as the
    parser read it, starts with [#], which it does whenever the target
    does: the click then sets the hash as a button without action and
    with the same target does.  Otherwise the script does nothing and
    the link is left to the browser.  A link without target goes to the
    root path.  Whenever the script navigates, storage is as before, the
    state keeps its data and the address reads the target as the browser
    encodes it. *)
Theorem link_stays_in_page (doc : string -> option FormEl) (now : Z)
    (td : option (list string)) (s : State) (c : Component) (w : World) :
  (kind c = Some "link" ->
   Forall (fun a => a ≠ quote_char) (list_ascii_of_string (Js.or_str (c_to c) "#/")) ->
   renderComponent td s c =
     (Some (El "a" [("href", Js.or_str (c_to c) "#/"); ("class", "card")]
              (Some (OnLinkClick c))
              [Html (escapeHtml (Js.or_str (c_label c) "ลิงก์"))]), s)) /\
  (Js.attribute_starts_with_hash (Js.or_str (c_to c) "#/") = true ->
   link_onclick c w = Some (navigate (Js.or_str (c_to c) "#/") w) /\
   (c_action c = None -> link_onclick c w = Some (button_onclick doc now c w))) /\
  (Js.attribute_starts_with_hash (Js.or_str (c_to c) "#/") = false ->
   link_onclick c w = None) /\
  (Js.starts_with "#" (Js.or_str (c_to c) "#/") = true ->
   Js.attribute_starts_with_hash (Js.or_str (c_to c) "#/") = true) /\
  (Js.truthy (c_to c) = false -> link_onclick c w = Some (navigate "#/" w)) /\
  (forall w', link_onclick c w = Some w' ->
     bp_state w' = bp_state w /\ same_data (state w) (state w') /\
     hash w' = hash_of (Js.or_str (c_to c) "#/")).
Proof.
  unfold link_onclick. split; [|split; [|split; [|split; [|split]]]].
  - intros Hk Hv. unfold renderComponent. rewrite Hk. unfold renderKind. simpl.
    by rewrite link_parses_plain.
  - intros ->. split; [done|]. intros Ha.
    unfold button_onclick. rewrite Ha. reflexivity.
  - by intros ->.
  - unfold Js.starts_with, Js.attribute_starts_with_hash.
    destruct (Js.or_str (c_to c) "#/") as [|a v]; [done|]. by intros ->.
  - intros Hto. assert (Js.or_str (c_to c) "#/" = "#/") as ->; [|done].
    unfold Js.or_str, Js.truthy in *. destruct (c_to c) as [t|]; [|done].
    by destruct (String.eqb t EmptyString).
  - intros w'. destruct (Js.attribute_starts_with_hash (Js.or_str (c_to c) "#/")); [|done].
    intros [= <-]. split; [apply navigate_bp_state|]. split; [apply navigate_same_data|].
    apply hash_navigate.
Qed.

(** A link to a path with a space in it, and one whose target is
    written with a character reference. *)
Definition link_to (target : string) : Component := {|
  c_type := Some (TString "link"); c_value := None; c_src := None; c_to := Some target;
  c_label := Some "Go"; c_action := None; c_formId := None; c_items := None;
  c_collection := None; c_field := None; c_columns := None; c_rows := None;
  c_fields := None; c_submit := None; c_redirect := None |}.

(** Links at work: the address after a click holds the path encoded; a
    target that starts with a reference to [#] stays in the page although
    it does not start with [#]; a target that closes its attribute and
    opens one that never ends gives no element, and rendering throws. *)
Example link_examples :
  (hash <$> link_onclick (link_to "#/a b") blank_world) = Some "#/a%20b" /\
  (hash <$> link_onclick (link_to "&#35;/a") blank_world) = Some "#&#35;/a" /\
  link_onclick (link_to "page.html") blank_world = None /\
  renderComponent None empty_state
    (link_to (String quote_char " title='")) = (None, empty_state).
Proof. repeat split; by vm_compute. Qed.

(** The images of the profile. *)
Definition profile_images (s : State) : list Node :=
  match renderProfile s with
  | El _ _ _ [_; El _ _ _ imgs] => imgs
  | _ => []
  end.

(** The images of a grid. *)
Definition grid_images (s : State) (c : Component) : list Node :=
  match (renderComponent None s c).1 with
  | Some (El _ _ _ imgs) => imgs
  | _ => []
  end.

(** The profile has one image for every post of the current user, also
    for a post without picture, whose image gets the address
    [undefined]; a grid has one image for every post with a picture,
    whoever posted it, and none for a post without. *)
Theorem profile_keeps_imageless_posts (s : State) (c : Component) (p : Post) :
  kind c = Some "grid" ->
  p ∈ posts s ->
  p_user p = username (currentUser s) ->
  p_img p = None ->
  El "img" [("src", "undefined")] None [] ∈ profile_images s /\
  length (profile_images s) =
    length (filter (fun q => p_user q = username (currentUser s)) (posts s)) /\
  length (grid_images s c) =
    length (filter (fun q => Js.truthy (p_img q) = true) (posts s)) /\
  (length (grid_images s c) < length (posts s))%nat.
Proof.
  intros Hk Hp Hu Hi.
  assert (grid_images s c =
          map (fun src => El "img" [("src", src)] None [])
              (omap (fun q => Js.or_null (p_img q)) (posts s))) as Hg.
  { unfold grid_images, renderComponent. by rewrite Hk. }
  assert (forall l : list Post,
            length (omap (fun q => Js.or_null (p_img q)) l) =
            length (filter (fun q => Js.truthy (p_img q) = true) l)) as Hlen.
  { induction l as [|q l IH]; [done|]. rewrite filter_cons.
    change (omap (fun q => Js.or_null (p_img q)) (q :: l))
      with (match Js.or_null (p_img q) with
            | Some y => y :: omap (fun q => Js.or_null (p_img q)) l
            | None => omap (fun q => Js.or_null (p_img q)) l
            end).
    unfold Js.or_null at 1. destruct (decide _) as [Ht|Ht].
    - rewrite Ht. destruct (p_img q); [|done]. simpl. by rewrite IH.
    - apply not_true_is_false in Ht. rewrite Ht. exact IH. }
  split; [|split; [|split]].
  - unfold profile_images, renderProfile.
    apply (list_elem_of_fmap_2' _ _ p); [by apply list_elem_of_filter|].
    by rewrite Hi.
  - unfold profile_images, renderProfile. apply length_map.
  - rewrite Hg, length_map. apply Hlen.
  - rewrite Hg, length_map, Hlen.
    apply list_elem_of_split in Hp as (l1 & l2 & ->).
    rewrite filter_app, filter_cons, !length_app. simpl.
    destruct (decide _) as [Ht|_]; [by rewrite Hi in Ht|].
    pose proof (length_filter (fun q => Js.truthy (p_img q) = true) l1).
    pose proof (length_filter (fun q => Js.truthy (p_img q) = true) l2).
    lia.
Qed.

Definition text_post : Post := {|
  p_id := Some 2%Z; p_user := "you"; p_img := None; p_caption := Some "hello";
  p_likes := None; p_liked := false; p_comments := None; p_ts := Some 2%Z |}.

Lemma profile_keeps_imageless_posts_witness :
  text_post ∈ posts (with_posts [text_post] empty_state) /\
  El "img" [("src", "undefined")] None [] ∈ profile_images (with_posts [text_post] empty_state) /\
  (length (grid_images (with_posts [text_post] empty_state) (grid_of "photos"))
   < length (posts (with_posts [text_post] empty_state)))%nat.
Proof.
  assert (kind (grid_of "photos") = Some "grid") as H1 by reflexivity.
  assert (text_post ∈ posts (with_posts [text_post] empty_state)) as H2
    by (apply list_elem_of_here).
  assert (p_user text_post = username (currentUser (with_posts [text_post] empty_state)))
    as H3 by reflexivity.
  assert (p_img text_post = None) as H4 by reflexivity.
  destruct (profile_keeps_imageless_posts _ (grid_of "photos") text_post H1 H2 H3 H4)
    as (Hin & _ & _ & Hlt).
  split; [exact H2|]. split; [exact Hin|exact Hlt].
Defined.

End Renderer.

(** ** Revising a blueprint

    The server merges each delta into the blueprint of the session before
    a build (REVISE_USAGE.md: fields are deep-merged, arrays are merged by
    set-union order, duplicates are avoided).  The merge itself runs on
    the server and is not among the sources; it is modelled here from
    sections 3 and 4.1 of the specification. *)
Module Revise.

(** Modelled from the spec: the blueprint of section 3, the full
    description of one application version (the server's data model is
    not among the sources). *)
Record Blueprint := {
  appName : string;
  uiTheme : string;
  b_routes : list Route;
  dataModels : gmap string (list string);
  sampleData : gmap string (list Record)
}.

(** Modelled from the spec: a delta, any subset of the fields of a
    blueprint (the server's request schema is not among the sources). *)
Record PartialBlueprint := {
  d_appName : option string;
  d_uiTheme : option string;
  d_routes : option (list Route);
  d_dataModels : option (gmap string (list string));
  d_sampleData : option (gmap string (list Record))
}.

Section Union.
Context {A : Type} `{EqDecision A}.

(** Modelled from the spec: the union of two arrays under full equality
    (the server's merge is not among the sources).  The base comes first,
    in its order; an item of the delta that is equal to one already there
    is dropped, any other is appended, in the order of the delta. *)
Definition array_union (base delta : list A) : list A :=
  foldl (fun acc x => if decide (x ∈ acc) then acc else acc ++ [x]) base delta.

(** The items of the delta that the union appends after [seen]. *)
Fixpoint fresh_items (seen delta : list A) : list A :=
  match delta with
  | [] => []
  | x :: delta' =>
      if decide (x ∈ seen) then fresh_items seen delta'
      else x :: fresh_items (seen ++ [x]) delta'
  end.

End Union.

(** Modelled from the spec: the scalar rule of the server's merge, which
    is not among the sources.  A scalar of the delta replaces that of the
    base when present; an absent one leaves the base untouched. *)
Definition merge_scalar {A} (base : A) (delta : option A) : A :=
  default base delta.

(** Modelled from the spec: the scalar rule of the server's merge, which
    is not among the sources, for the optional title of a route. *)
Definition merge_title (base delta : option string) : option string :=
  match delta with
  | Some t => Some t
  | None => base
  end.

(** Modelled from the spec: the component rule of the server's merge,
    which is not among the sources.  The components of two routes with
    the same path are merged by array union under structural equality,
    never by replacement; components are compared as wholes, so two that
    differ in type are never merged into one. *)
Definition merge_components (base delta : option (list Component))
    : option (list Component) :=
  match base, delta with
  | Some b, Some d => Some (array_union b d)
  | _, None => base
  | None, Some d => Some d
  end.

(** Modelled from the spec: a delta route merged into the route of the
    same path, field by field (the server's merge is not among the
    sources): the path is the identity, the title is a scalar, the
    components are united. *)
Definition merge_route (base delta : Route) : Route := {|
  path := path base;
  title := merge_title (title base) (title delta);
  components := merge_components (components base) (components delta)
|}.

(** Modelled from the spec: the route rule of the server's merge, which
    is not among the sources.  Routes are identified by their path; a
    delta route is merged in place into the first route of its path, and
    appended when there is none, so the base order comes first and the
    new routes follow in the order of the delta. *)
Fixpoint upsert_route (d : Route) (acc : list Route) : list Route :=
  match acc with
  | [] => [d]
  | b :: acc' =>
      if decide (path b = path d) then merge_route b d :: acc'
      else b :: upsert_route d acc'
  end.

Definition merge_routes (base delta : list Route) : list Route :=
  foldl (fun acc d => upsert_route d acc) base delta.

(** Modelled from the spec: the rule of the server's merge, which is not
    among the sources, for object-valued fields.  They are merged key by
    key; a key of both sides has its arrays united, a key of the delta
    alone is added. *)
Definition merge_keyed {A} `{EqDecision A}
    (base : gmap string (list A)) (delta : option (gmap string (list A)))
    : gmap string (list A) :=
  match delta with
  | Some d => union_with (fun b x => Some (array_union b x)) base d
  | None => base
  end.

(** Modelled from the spec: [merge(base, delta)] of section 4.1, which
    runs on the server and is not among the sources; a function of its
    two arguments that builds a new blueprint. *)
Definition merge (base : Blueprint) (delta : PartialBlueprint) : Blueprint := {|
  appName := merge_scalar (appName base) (d_appName delta);
  uiTheme := merge_scalar (uiTheme base) (d_uiTheme delta);
  b_routes := match d_routes delta with
              | Some rs => merge_routes (b_routes base) rs
              | None => b_routes base
              end;
  dataModels := merge_keyed (dataModels base) (d_dataModels delta);
  sampleData := merge_keyed (sampleData base) (d_sampleData delta)
|}.

(** Modelled from the spec: the collections a delta introduces, for which
    the build has to scaffold a backend (the server's detection of new
    collections is not among the sources). *)
Definition new_collections (base : Blueprint) (delta : PartialBlueprint) : gset string :=
  (dom (default ∅ (d_dataModels delta)) ∪ dom (default ∅ (d_sampleData delta)))
  ∖ (dom (dataModels base) ∪ dom (sampleData base)).

(** The delta routes a route of the base absorbs: those of its path. *)
Definition absorb (e : Route) (ds : list Route) : Route :=
  foldl merge_route e ds.

Definition at_path (p : option string) (ds : list Route) : list Route :=
  filter (fun d => p = path d) ds.

Definition off_path (p : option string) (ds : list Route) : list Route :=
  filter (fun d => p ≠ path d) ds.

(** *** Array union *)

Section UnionFacts.
Context {A : Type} `{EqDecision A}.
Implicit Types base delta seen : list A.

Lemma array_union_fresh base delta :
  array_union base delta = base ++ fresh_items base delta.
Proof.
  revert base. induction delta as [|x delta IH]; intros base; simpl.
  - by rewrite app_nil_r.
  - unfold array_union in *. simpl. destruct (decide (x ∈ base)); [apply IH|].
    rewrite IH. by rewrite <- app_assoc.
Qed.

Lemma fresh_items_spec seen delta x :
  x ∈ fresh_items seen delta <-> x ∈ delta /\ x ∉ seen.
Proof.
  revert seen. induction delta as [|y delta IH]; intros seen; simpl.
  - split; [by intros ?%elem_of_nil|by intros [?%elem_of_nil _]].
  - destruct (decide (y ∈ seen)) as [Hy|Hy].
    + rewrite IH, elem_of_cons. split; [tauto|].
      intros [[->|?] ?]; tauto.
    + rewrite !elem_of_cons, IH, elem_of_app, list_elem_of_singleton.
      split.
      * intros [->|[? ?]]; tauto.
      * intros [[->|?] ?]; [tauto|].
        destruct (decide (x = y)); tauto.
Qed.

Lemma fresh_items_NoDup seen delta : NoDup (fresh_items seen delta).
Proof.
  revert seen. induction delta as [|y delta IH]; intros seen; simpl; [constructor|].
  destruct (decide (y ∈ seen)); [apply IH|].
  constructor; [|apply IH].
  rewrite fresh_items_spec, elem_of_app, list_elem_of_singleton. tauto.
Qed.

Lemma fresh_items_sublist seen delta : sublist (fresh_items seen delta) delta.
Proof.
  revert seen. induction delta as [|y delta IH]; intros seen; simpl; [constructor|].
  destruct (decide (y ∈ seen)); [by apply sublist_cons|by apply sublist_skip].
Qed.

Lemma fresh_items_covered seen delta :
  (forall x, x ∈ delta -> x ∈ seen) -> fresh_items seen delta = [].
Proof.
  intros H. destruct (fresh_items seen delta) as [|x l] eqn:E; [done|].
  assert (x ∈ fresh_items seen delta) as Hx by (rewrite E; left).
  apply fresh_items_spec in Hx as [Hd Hs]. by apply H in Hd.
Qed.

Lemma array_union_covered base delta :
  (forall x, x ∈ delta -> x ∈ base) -> array_union base delta = base.
Proof.
  intros H. rewrite array_union_fresh, fresh_items_covered by done.
  apply app_nil_r.
Qed.

Lemma elem_of_array_union base delta x :
  x ∈ array_union base delta <-> x ∈ base \/ x ∈ delta.
Proof.
  rewrite array_union_fresh, elem_of_app, fresh_items_spec.
  destruct (decide (x ∈ base)); tauto.
Qed.

Lemma array_union_idem base delta :
  array_union (array_union base delta) delta = array_union base delta.
Proof.
  apply array_union_covered. intros x Hx. apply elem_of_array_union. by right.
Qed.

Lemma array_union_self base : array_union base base = base.
Proof. by apply array_union_covered. Qed.

End UnionFacts.

(** Keyed fields: merging the same delta twice changes nothing more. *)
Lemma merge_keyed_idem {A} `{EqDecision A}
    (base : gmap string (list A)) (delta : option (gmap string (list A))) :
  merge_keyed (merge_keyed base delta) delta = merge_keyed base delta.
Proof.
  destruct delta as [d|]; simpl; [|done].
  apply map_eq. intros k. rewrite !lookup_union_with.
  destruct (base !! k) as [b|], (d !! k) as [x|]; simpl; try done.
  - by rewrite array_union_idem.
  - by rewrite array_union_self.
Qed.

(** *** Routes *)

Lemma route_eq (r1 r2 : Route) :
  path r1 = path r2 -> title r1 = title r2 -> components r1 = components r2 -> r1 = r2.
Proof. destruct r1, r2; simpl; congruence. Qed.

Lemma merge_title_assoc (a b c : option string) :
  merge_title (merge_title a b) c = merge_title a (merge_title b c).
Proof. by destruct c. Qed.

Lemma foldl_merge_title (t : option string) (l : list (option string)) :
  foldl merge_title t l = merge_title t (foldl merge_title None l).
Proof.
  revert t. induction l as [|x l IH]; intros t; simpl; [done|].
  rewrite IH, (IH (merge_title None x)), <- merge_title_assoc.
  by destruct x.
Qed.

Lemma foldl_merge_title_idem (t : option string) (l : list (option string)) :
  foldl merge_title (foldl merge_title t l) l = foldl merge_title t l.
Proof.
  rewrite (foldl_merge_title (foldl _ _ _)), (foldl_merge_title t).
  by destruct (foldl merge_title None l).
Qed.

Lemma foldl_merge_title_again (t : option string) (l : list (option string)) :
  foldl merge_title (merge_title (foldl merge_title t l) t) l = foldl merge_title t l.
Proof.
  rewrite (foldl_merge_title (merge_title _ _)), (foldl_merge_title t).
  destruct (foldl merge_title None l); simpl; [done|]. by destruct t.
Qed.

(** [c] already holds every component of [x]. *)
Definition covers (c x : option (list Component)) : Prop :=
  match x with
  | None => True
  | Some lx => match c with
               | Some lc => forall y, y ∈ lx -> y ∈ lc
               | None => False
               end
  end.

Lemma covers_merge (c x : option (list Component)) :
  covers c x -> merge_components c x = c.
Proof.
  destruct c as [lc|], x as [lx|]; simpl; try done.
  intros H. by rewrite array_union_covered.
Qed.

Lemma merge_covers (c x : option (list Component)) : covers (merge_components c x) x.
Proof.
  destruct c as [lc|], x as [lx|]; simpl; try done.
  intros y Hy. apply elem_of_array_union. by right.
Qed.

Lemma covers_mono (c x y : option (list Component)) :
  covers c x -> covers (merge_components c y) x.
Proof.
  destruct c as [lc|], x as [lx|], y as [ly|]; simpl; try done.
  intros H z Hz. apply elem_of_array_union. left. by apply H.
Qed.

Lemma covers_refl (c : option (list Component)) : covers c c.
Proof. destruct c; simpl; auto. Qed.

Lemma foldl_covers_mono (c x : option (list Component)) (l : list (option (list Component))) :
  covers c x -> covers (foldl merge_components c l) x.
Proof.
  revert c. induction l as [|y l IH]; intros c H; simpl; [done|].
  apply IH. by apply covers_mono.
Qed.

Lemma foldl_covers (c : option (list Component)) (l : list (option (list Component))) :
  forall x, x ∈ l -> covers (foldl merge_components c l) x.
Proof.
  revert c. induction l as [|y l IH]; intros c x Hx; simpl.
  - by apply elem_of_nil in Hx.
  - apply elem_of_cons in Hx as [->|Hx]; [|by apply IH].
    apply foldl_covers_mono, merge_covers.
Qed.

Lemma foldl_covered (c : option (list Component)) (l : list (option (list Component))) :
  (forall x, x ∈ l -> covers c x) -> foldl merge_components c l = c.
Proof.
  induction l as [|y l IH]; intros H; simpl; [done|].
  rewrite covers_merge by (apply H; left). apply IH.
  intros x Hx. apply H. by right.
Qed.

Lemma absorb_path (e : Route) (ds : list Route) : path (absorb e ds) = path e.
Proof.
  revert e. induction ds as [|d ds IH]; intros e; simpl; [done|].
  unfold absorb in *. simpl. by rewrite IH.
Qed.

Lemma absorb_title (e : Route) (ds : list Route) :
  title (absorb e ds) = foldl merge_title (title e) (map title ds).
Proof.
  revert e. induction ds as [|d ds IH]; intros e; simpl; [done|].
  unfold absorb in *. simpl. by rewrite IH.
Qed.

Lemma absorb_components (e : Route) (ds : list Route) :
  components (absorb e ds) = foldl merge_components (components e) (map components ds).
Proof.
  revert e. induction ds as [|d ds IH]; intros e; simpl; [done|].
  unfold absorb in *. simpl. by rewrite IH.
Qed.

(** A route that absorbed some delta routes has nothing to gain from
    them a second time. *)
Lemma absorb_idem (e : Route) (ds : list Route) :
  absorb (absorb e ds) ds = absorb e ds.
Proof.
  apply route_eq.
  - by rewrite !absorb_path.
  - rewrite !absorb_title. apply foldl_merge_title_idem.
  - rewrite !absorb_components. apply foldl_covered.
    intros x Hx. by apply foldl_covers.
Qed.

(** Nor has a delta route that absorbed the later ones of its path from
    itself followed by them. *)
Lemma absorb_again (d : Route) (ds : list Route) :
  absorb (merge_route (absorb d ds) d) ds = absorb d ds.
Proof.
  apply route_eq.
  - rewrite absorb_path. reflexivity.
  - rewrite !absorb_title. simpl. rewrite absorb_title.
    apply foldl_merge_title_again.
  - rewrite !absorb_components. simpl. rewrite absorb_components.
    rewrite covers_merge by apply foldl_covers_mono, covers_refl.
    apply foldl_covered. intros x Hx. by apply foldl_covers.
Qed.

(** The first route of the base takes the delta routes of its path; the
    others go on to the rest of the base. *)
Lemma merge_routes_cons (e : Route) (acc ds : list Route) :
  merge_routes (e :: acc) ds =
  absorb e (at_path (path e) ds) :: merge_routes acc (off_path (path e) ds).
Proof.
  revert e acc. induction ds as [|d ds IH]; intros e acc; [done|].
  unfold merge_routes in *. simpl foldl at 1. simpl upsert_route.
  unfold at_path, off_path in *. rewrite !filter_cons.
  destruct (decide (path e = path d)) as [Heq|Hne].
  - rewrite IH. simpl path.
    destruct (decide (path e ≠ path d)) as [Hne|_]; [by destruct Hne|done].
  - rewrite IH. by rewrite decide_True by done.
Qed.

Lemma off_path_length (p : option string) (ds : list Route) :
  length (off_path p ds) <= length ds.
Proof. apply length_filter. Qed.

Lemma off_path_at_path (p : option string) (ds : list Route) :
  at_path p (off_path p ds) = [].
Proof.
  unfold at_path, off_path. induction ds as [|d ds IH]; [done|].
  rewrite filter_cons. destruct (decide (p ≠ path d)) as [Hne|Heq]; [|done].
  rewrite filter_cons. destruct (decide (p = path d)); done.
Qed.

(** Merging into no route at all: the first delta route opens an entry
    that takes the later routes of its path. *)
Lemma merge_routes_nil (d : Route) (ds : list Route) :
  merge_routes [] (d :: ds) =
  absorb d (at_path (path d) ds) :: merge_routes [] (off_path (path d) ds).
Proof. unfold merge_routes at 1. simpl. apply merge_routes_cons. Qed.

Lemma merge_routes_fresh_idem (n : nat) (ds : list Route) :
  length ds <= n ->
  merge_routes (merge_routes [] ds) ds = merge_routes [] ds.
Proof.
  revert ds. induction n as [|n IH]; intros ds Hlen.
  - destruct ds; [done|simpl in Hlen; lia].
  - destruct ds as [|d ds]; [done|].
    rewrite merge_routes_nil.
    unfold merge_routes at 1. simpl foldl. simpl upsert_route.
    rewrite absorb_path. rewrite decide_True by done.
    fold (merge_routes (merge_route (absorb d (at_path (path d) ds)) d
                        :: merge_routes [] (off_path (path d) ds)) ds).
    rewrite merge_routes_cons. simpl path. rewrite absorb_path.
    rewrite absorb_again. f_equal.
    apply IH. pose proof (off_path_length (path d) ds). simpl in Hlen. lia.
Qed.

(** Merging the same delta routes a second time changes nothing. *)
Lemma merge_routes_idem (base delta : list Route) :
  merge_routes (merge_routes base delta) delta = merge_routes base delta.
Proof.
  revert delta. induction base as [|e base IH]; intros delta.
  - by apply (merge_routes_fresh_idem (length delta)).
  - rewrite merge_routes_cons. rewrite merge_routes_cons.
    rewrite absorb_path, absorb_idem. f_equal. apply IH.
Qed.

Lemma merge_scalar_idem {A} (base : A) (delta : option A) :
  merge_scalar (merge_scalar base delta) delta = merge_scalar base delta.
Proof. by destruct delta. Qed.

(** C1.  Merging a delta into a blueprint that already took it in gives
    the same blueprint: name and theme, every route with its title and
    components, every data model and every row are as after the first
    merge, so nothing is duplicated.  [merge] is a function: its result
    depends on its two arguments alone and the base is a value it cannot
    change. *)
Theorem merge_idempotent (B : Blueprint) (D : PartialBlueprint) :
  merge (merge B D) D = merge B D.
Proof.
  unfold merge. simpl. f_equal.
  - apply merge_scalar_idem.
  - apply merge_scalar_idem.
  - destruct (d_routes D); [apply merge_routes_idem|done].
  - apply merge_keyed_idem.
  - apply merge_keyed_idem.
Qed.

Lemma at_path_nil (p : option string) (ds : list Route) :
  p ∉ map path ds -> at_path p ds = [].
Proof.
  unfold at_path. induction ds as [|d ds IH]; intros Hp; [done|].
  rewrite filter_cons. cbn [map] in Hp. apply not_elem_of_cons in Hp as [Hne Hp].
  destruct (decide (p = path d)); [done|]. by apply IH.
Qed.

Lemma elem_of_map_path (r : Route) (rs : list Route) : r ∈ rs -> path r ∈ map path rs.
Proof.
  induction rs as [|x rs IH]; intros Hin; [by apply elem_of_nil in Hin|].
  cbn [map]. apply elem_of_cons in Hin as [->|Hin]; apply elem_of_cons; auto.
Qed.

Lemma at_path_unique (rd : Route) (ds : list Route) :
  NoDup (map path ds) -> rd ∈ ds -> at_path (path rd) ds = [rd].
Proof.
  unfold at_path. induction ds as [|d ds IH]; intros Hnd Hin.
  - by apply elem_of_nil in Hin.
  - cbn [map] in Hnd. apply NoDup_cons in Hnd as [Hd Hnd].
    rewrite filter_cons. apply elem_of_cons in Hin as [->|Hin].
    + rewrite decide_True by done. f_equal. by apply at_path_nil.
    + destruct (decide (path rd = path d)) as [Heq|_]; [|by apply IH].
      exfalso. apply Hd. rewrite <- Heq. by apply elem_of_map_path.
Qed.

Lemma at_path_off_path (p q : option string) (ds : list Route) :
  p ≠ q -> at_path p (off_path q ds) = at_path p ds.
Proof.
  intros Hne. unfold at_path, off_path. induction ds as [|d ds IH]; [done|].
  rewrite !filter_cons.
  destruct (decide (q ≠ path d)) as [Hq|Hq].
  - rewrite filter_cons. by rewrite IH.
  - destruct (decide (p = path d)) as [Hp|_]; [|done].
    exfalso. apply Hq. congruence.
Qed.

Lemma elem_of_off_path (q : option string) (ds : list Route) (d : Route) :
  d ∈ off_path q ds <-> q ≠ path d /\ d ∈ ds.
Proof. unfold off_path. by rewrite list_elem_of_filter. Qed.

(** A route of the base before which no route has its path takes the
    delta routes of its path where it stands. *)
Lemma merge_routes_middle (B1 B2 : list Route) (rb : Route) (ds : list Route) :
  path rb ∉ map path B1 ->
  exists l1 ds',
    merge_routes (B1 ++ rb :: B2) ds =
      l1 ++ absorb rb (at_path (path rb) ds) :: merge_routes B2 ds' /\
    map path l1 = map path B1 /\
    (forall d, d ∈ ds' -> path d ≠ path rb /\ d ∈ ds).
Proof.
  revert ds. induction B1 as [|e B1 IH]; intros ds Hnotin.
  - exists [], (off_path (path rb) ds). simpl. rewrite merge_routes_cons.
    split; [done|]. split; [done|].
    intros d Hd. apply elem_of_off_path in Hd as [Hne Hd]. split; [congruence|done].
  - cbn [map] in Hnotin. apply not_elem_of_cons in Hnotin as [Hne Hnotin].
    destruct (IH (off_path (path e) ds) Hnotin) as (l1 & ds' & Heq & Hpaths & Hds').
    exists (absorb e (at_path (path e) ds) :: l1), ds'.
    rewrite <- app_comm_cons, merge_routes_cons, Heq.
    rewrite at_path_off_path by done.
    split; [done|]. split.
    + cbn [map]. by rewrite absorb_path, Hpaths.
    + intros d Hd. destruct (Hds' d Hd) as [Hp Hin].
      apply elem_of_off_path in Hin as [_ Hin]. done.
Qed.

Lemma upsert_route_paths (d r : Route) (acc : list Route) :
  r ∈ upsert_route d acc -> path r ∈ map path acc \/ path r = path d.
Proof.
  induction acc as [|b acc IH]; simpl.
  - intros Hr. apply list_elem_of_singleton in Hr as ->. by right.
  - destruct (decide (path b = path d)).
    + intros Hr. apply elem_of_cons in Hr as [->|Hr]; left; apply elem_of_cons.
      * by left.
      * right. by apply elem_of_map_path.
    + intros Hr. apply elem_of_cons in Hr as [->|Hr].
      * left. apply elem_of_cons. by left.
      * destruct (IH Hr) as [H|H]; [|by right]. left. apply elem_of_cons. by right.
Qed.

Lemma merge_routes_paths (r : Route) (acc ds : list Route) :
  r ∈ merge_routes acc ds ->
  path r ∈ map path acc \/ exists d, d ∈ ds /\ path r = path d.
Proof.
  revert acc. induction ds as [|d ds IH]; intros acc Hr.
  - left. by apply elem_of_map_path.
  - unfold merge_routes in *. simpl in Hr. destruct (IH _ Hr) as [H|(d' & Hd' & Hp)].
    + assert (exists x, x ∈ upsert_route d acc /\ path x = path r) as (x & Hx & Hpx).
      { clear -H. induction (upsert_route d acc) as [|y l IHl]; cbn [map] in H.
        - by apply elem_of_nil in H.
        - apply elem_of_cons in H as [H|H].
          + exists y. split; [by left|done].
          + destruct (IHl H) as (x & Hx & Hpx). exists x. split; [by right|done]. }
      apply upsert_route_paths in Hx as [Hx|Hx]; rewrite Hpx in Hx.
      * by left.
      * right. exists d. split; [by left|done].
    + right. exists d'. split; [by right|done].
Qed.

(** C2.  In a blueprint, where paths are unique, a route at path [p]
    merged with the delta route at [p] stays where it was and is the only
    route at [p] of the result; its components are those of the base
    route in their order followed by the components of the delta route
    that the base route lacks, each once and in the order of the delta:
    the union, not a replacement. *)
Theorem same_path_routes_unite (B : Blueprint) (D : PartialBlueprint)
    (ds : list Route) (rb rd : Route) (cb cd : list Component) :
  NoDup (map path (b_routes B)) ->
  rb ∈ b_routes B ->
  d_routes D = Some ds ->
  NoDup (map path ds) ->
  rd ∈ ds ->
  path rd = path rb ->
  components rb = Some cb ->
  components rd = Some cd ->
  exists l1 r l2 extra,
    b_routes (merge B D) = l1 ++ r :: l2 /\
    path r = path rb /\
    (forall r', r' ∈ l1 ++ l2 -> path r' ≠ path rb) /\
    (exists B1 B2, b_routes B = B1 ++ rb :: B2 /\ length l1 = length B1) /\
    components r = Some (cb ++ extra) /\
    cb ++ extra = array_union cb cd /\
    NoDup extra /\
    sublist extra cd /\
    (forall x, x ∈ extra <-> x ∈ cd /\ x ∉ cb).
Proof.
  intros HndB Hrb HD Hndd Hrd Hpath Hcb Hcd.
  apply list_elem_of_split in Hrb as (B1 & B2 & HB).
  rewrite HB in HndB. rewrite map_app in HndB. cbn [map] in HndB.
  apply NoDup_app in HndB as (_ & Hdisj & HndB2).
  apply NoDup_cons in HndB2 as [Hnot2 _].
  assert (path rb ∉ map path B1) as Hnot1.
  { intros Hin. apply (Hdisj _ Hin). by left. }
  destruct (merge_routes_middle B1 B2 rb ds Hnot1) as (l1 & ds' & Heq & Hpaths & Hds').
  rewrite <- Hpath in Heq. rewrite (at_path_unique rd ds Hndd Hrd) in Heq.
  exists l1, (merge_route rb rd), (merge_routes B2 ds'), (fresh_items cb cd).
  split; [|split; [|split; [|split; [|split; [|split; [|split; [|split]]]]]]].
  - unfold merge. simpl. by rewrite HD, HB.
  - done.
  - intros r' Hr' Hp. apply elem_of_app in Hr' as [Hr'|Hr'].
    + apply Hnot1. rewrite <- Hpaths, <- Hp. by apply elem_of_map_path.
    + apply merge_routes_paths in Hr' as [Hin|(d & Hd & Hpd)].
      * apply Hnot2. by rewrite <- Hp.
      * destruct (Hds' d Hd) as [Hne _]. congruence.
  - exists B1, B2. split; [done|].
    by rewrite <- (length_map path l1), Hpaths, length_map.
  - simpl. rewrite Hcb, Hcd. simpl. by rewrite array_union_fresh.
  - by rewrite array_union_fresh.
  - apply fresh_items_NoDup.
  - apply fresh_items_sublist.
  - intros x. apply fresh_items_spec.
Qed.

(** Merging keeps the paths of a blueprint unique, whatever the delta. *)
Lemma upsert_route_NoDup (d : Route) (acc : list Route) :
  NoDup (map path acc) -> NoDup (map path (upsert_route d acc)).
Proof.
  induction acc as [|b acc IH]; intros Hnd; simpl.
  - apply NoDup_singleton.
  - cbn [map] in Hnd. apply NoDup_cons in Hnd as [Hb Hnd].
    destruct (decide (path b = path d)) as [Heq|Hne]; cbn [map].
    + by apply NoDup_cons.
    + apply NoDup_cons. split; [|by apply IH].
      intros Hin.
      assert (exists x, x ∈ upsert_route d acc /\ path x = path b) as (x & Hx & Hpx).
      { clear -Hin. induction (upsert_route d acc) as [|y l IHl]; cbn [map] in Hin.
        - by apply elem_of_nil in Hin.
        - apply elem_of_cons in Hin as [Hin|Hin].
          + exists y. split; [by left|done].
          + destruct (IHl Hin) as (x & Hx & Hpx). exists x. split; [by right|done]. }
      apply upsert_route_paths in Hx as [Hx|Hx]; rewrite Hpx in Hx; done.
Qed.

Lemma merge_paths_unique (B : Blueprint) (D : PartialBlueprint) :
  NoDup (map path (b_routes B)) -> NoDup (map path (b_routes (merge B D))).
Proof.
  intros Hnd. unfold merge. simpl. destruct (d_routes D) as [ds|]; [|done].
  unfold merge_routes. revert Hnd. generalize (b_routes B).
  induction ds as [|d ds IH]; intros acc Hnd; simpl; [done|].
  by apply IH, upsert_route_NoDup.
Qed.

Definition button_go : Component := {|
  c_type := Some (TString "button"); c_value := None; c_src := None; c_to := None;
  c_label := Some "Go"; c_action := None; c_formId := None; c_items := None;
  c_collection := None; c_field := None; c_columns := None; c_rows := None;
  c_fields := None; c_submit := None; c_redirect := None |}.

Definition home_hi : Route :=
  {| path := Some "#/"; title := Some "Home";
     components := Some [Renderer.text_of "hi"] |}.

Definition home_hi_go : Route :=
  {| path := Some "#/"; title := Some "Home";
     components := Some [Renderer.text_of "hi"; button_go] |}.

Definition just_routes (rs : list Route) : PartialBlueprint :=
  {| d_appName := None; d_uiTheme := None; d_routes := Some rs;
     d_dataModels := None; d_sampleData := None |}.

(** The blueprint of a new session. *)
Definition empty_blueprint : Blueprint :=
  {| appName := EmptyString; uiTheme := "light"; b_routes := [];
     dataModels := ∅; sampleData := ∅ |}.

Definition session_one : Blueprint := merge empty_blueprint (just_routes [home_hi]).

Lemma same_path_routes_unite_witness :
  NoDup (map path (b_routes session_one)) /\
  home_hi ∈ b_routes session_one /\
  NoDup (map path [home_hi_go]) /\
  home_hi_go ∈ [home_hi_go] /\
  b_routes (merge session_one (just_routes [home_hi_go])) = [home_hi_go] /\
  exists l1 r l2 extra,
    b_routes (merge session_one (just_routes [home_hi_go])) = l1 ++ r :: l2 /\
    path r = path home_hi /\
    (forall r', r' ∈ l1 ++ l2 -> path r' ≠ path home_hi) /\
    (exists B1 B2, b_routes session_one = B1 ++ home_hi :: B2 /\ length l1 = length B1) /\
    components r = Some ([Renderer.text_of "hi"] ++ extra) /\
    [Renderer.text_of "hi"] ++ extra =
      array_union [Renderer.text_of "hi"] [Renderer.text_of "hi"; button_go] /\
    NoDup extra /\
    sublist extra [Renderer.text_of "hi"; button_go] /\
    (forall x, x ∈ extra <->
               x ∈ [Renderer.text_of "hi"; button_go] /\ x ∉ [Renderer.text_of "hi"]).
Proof.
  assert (NoDup (map path (b_routes session_one))) as H1.
  { apply (bool_decide_unpack _). vm_compute. exact I. }
  assert (home_hi ∈ b_routes session_one) as H2.
  { apply (bool_decide_unpack _). vm_compute. exact I. }
  assert (NoDup (map path [home_hi_go])) as H3.
  { apply (bool_decide_unpack _). vm_compute. exact I. }
  assert (home_hi_go ∈ [home_hi_go]) as H4.
  { apply (bool_decide_unpack _). vm_compute. exact I. }
  split; [exact H1|]. split; [exact H2|]. split; [exact H3|]. split; [exact H4|].
  split; [by vm_compute|].
  exact (same_path_routes_unite session_one (just_routes [home_hi_go]) [home_hi_go]
           home_hi home_hi_go [Renderer.text_of "hi"] [Renderer.text_of "hi"; button_go]
           H1 H2 eq_refl H3 H4 eq_refl eq_refl eq_refl).
Defined.

(** The scenario of the specification: the first delta gives the empty
    blueprint one route, the second one unites the components, and
    the merged route renders as the text and the button. *)
Example revise_twice :
  b_routes session_one = [home_hi] /\
  b_routes (merge session_one (just_routes [home_hi_go])) = [home_hi_go] /\
  (Renderer.render_all None Renderer.empty_state
     (default [] (components home_hi_go))).1 =
    Some [El "div" Renderer.card None [Html "hi"];
          El "button" [] (Some (OnButtonClick button_go)) [Html "Go"]].
Proof. by vm_compute. Qed.

End Revise.
